(** * Portfolio optimisation utilities: a shallow embedding

    This development embeds the two functions of the repository,

    - [optimize_portfolio] of [portfolio_optimization_utils.py], the
      efficient-frontier sweep over a quadratic-programming solver, and
    - [return_portfolios] of [random_portfolios_gen.py], the random
      portfolio sampler,

    and proves properties of them.

    Numbers.  The Python code computes with [numpy.float64].  Rounding is
    not modelled: a finite number is a rational ([Q]) and arithmetic on
    finite numbers is exact.  The IEEE special values that the code can
    produce or tests for ([-inf] as the Sharpe ratio of a riskless point,
    [nan] and the infinities of a division by a zero sum or of the square
    root of a negative number) are modelled, with the usual IEEE rules; the
    sign of zero is not.  Inputs (return observations, the risk-free rate,
    bounds, expected returns, covariances, the uniform draws) are finite.

    External code.  The quadratic-programming solver ([cvxopt.solvers.qp]),
    the square root on non-negative finite numbers and numpy's random
    number generator are parameters of the model. *)

From Stdlib Require Import QArith Qminmax Qfield Lia.
From stdpp Require Import gmap strings pretty list fin_maps.

Local Open Scope Q_scope.

(** ** Python outcomes *)

Module Py.

(** The exception classes that occur in the two functions or in the
    calls they make. *)
Inductive exn : Type :=
| ValueError
| NameError
| IndexError
| KeyError
| OtherError (name : string).

(** A call either returns a value or raises. *)
Inductive outcome (A : Type) : Type :=
| Returned (a : A)
| Raised (e : exn).

Arguments Returned {A} a.
Arguments Raised {A} e.

#[export] Instance outcome_ret : MRet outcome := fun A a => Returned a.

#[export] Instance outcome_bind : MBind outcome := fun A B k m =>
  match m with
  | Returned a => k a
  | Raised e => Raised e
  end.

(** [[f(x) for x in xs]], stopping at the first exception. *)
Fixpoint for_each {A B : Type} (f : A -> outcome B) (xs : list A) : outcome (list B) :=
  match xs with
  | [] => Returned []
  | x :: xs' => y ← f x; ys ← for_each f xs'; Returned (y :: ys)
  end.

(** A Python [dict] built by inserting the items from left to right: a
    later item with a key already present overwrites the value. *)
Definition dict_of_items {V : Type} (items : list (string * V)) : gmap string V :=
  foldl (fun d kv => <[kv.1 := kv.2]> d) ∅ items.

End Py.

Import Py.

(** ** Numbers: rationals with the IEEE special values *)

Module Num.

Inductive fnum : Type :=
| NaN
| NInf
| Fin (q : Q)
| PInf.

Definition Qltb (a b : Q) : bool := negb (Qle_bool b a).

Arguments Qltb : simpl never.

Definition fneg (a : fnum) : fnum :=
  match a with
  | NaN => NaN
  | NInf => PInf
  | Fin q => Fin (- q)
  | PInf => NInf
  end.

Definition fadd (a b : fnum) : fnum :=
  match a, b with
  | NaN, _ | _, NaN => NaN
  | PInf, NInf | NInf, PInf => NaN
  | PInf, _ | _, PInf => PInf
  | NInf, _ | _, NInf => NInf
  | Fin x, Fin y => Fin (x + y)
  end.

(** An infinity scaled by a finite number. *)
Definition scale_inf (positive : bool) (q : Q) : fnum :=
  if Qeq_bool q 0 then NaN
  else if Bool.eqb positive (Qltb 0 q) then PInf else NInf.

Definition fmul (a b : fnum) : fnum :=
  match a, b with
  | NaN, _ | _, NaN => NaN
  | Fin x, Fin y => Fin (x * y)
  | PInf, Fin y | Fin y, PInf => scale_inf true y
  | NInf, Fin y | Fin y, NInf => scale_inf false y
  | PInf, PInf | NInf, NInf => PInf
  | PInf, NInf | NInf, PInf => NInf
  end.

(** Division of numpy floats: no exception; [0/0] is [nan] and [x/0] is
    an infinity with the sign of [x]. *)
Definition fdiv (a b : fnum) : fnum :=
  match a, b with
  | NaN, _ | _, NaN => NaN
  | Fin x, Fin y =>
      if Qeq_bool y 0 then
        if Qeq_bool x 0 then NaN else if Qltb 0 x then PInf else NInf
      else Fin (x / y)
  | Fin _, PInf | Fin _, NInf => Fin 0
  | PInf, Fin y => if Qltb y 0 then NInf else PInf
  | NInf, Fin y => if Qltb y 0 then PInf else NInf
  | PInf, PInf | PInf, NInf | NInf, PInf | NInf, NInf => NaN
  end.

(** [a > b]; every comparison with [nan] is false. *)
Definition fgtb (a b : fnum) : bool :=
  match a, b with
  | NaN, _ | _, NaN => false
  | PInf, PInf => false
  | PInf, _ => true
  | _, PInf => false
  | NInf, _ => false
  | Fin _, NInf => true
  | Fin x, Fin y => Qltb y x
  end.

Definition fltb (a b : fnum) : bool := fgtb b a.

Definition is_nan (a : fnum) : bool :=
  match a with NaN => true | _ => false end.

(** [np.sqrt], given the square root [sqrtQ] of the non-negative finite
    numbers: the square root of a negative number is [nan]. *)
Definition fsqrt (sqrtQ : Q -> Q) (a : fnum) : fnum :=
  match a with
  | NaN | NInf => NaN
  | PInf => PInf
  | Fin q => if Qltb q 0 then NaN else Fin (sqrtQ q)
  end.

(** Sums and products of vectors of finite numbers. *)
Definition Qsum (xs : list Q) : Q := foldr Qplus 0 xs.

Fixpoint Qdot (xs ys : list Q) : Q :=
  match xs, ys with
  | x :: xs', y :: ys' => x * y + Qdot xs' ys'
  | _, _ => 0
  end.

(** [np.dot(m, v)] for a matrix given by its rows. *)
Definition Qmatvec (m : list (list Q)) (v : list Q) : list Q :=
  map (fun row => Qdot row v) m.

(** The same on vectors that may hold special values. *)
Fixpoint fdot (xs ys : list fnum) : fnum :=
  match xs, ys with
  | x :: xs', y :: ys' => fadd (fmul x y) (fdot xs' ys')
  | _, _ => Fin 0
  end.

Definition fmatvec (m : list (list fnum)) (v : list fnum) : list fnum :=
  map (fun row => fdot row v) m.

Definition fsum (xs : list fnum) : fnum := foldr fadd (Fin 0) xs.

(** The order on numbers that are not [nan], as a proposition. *)
Definition fle (a b : fnum) : Prop :=
  match a, b with
  | NaN, _ | _, NaN => False
  | NInf, _ => True
  | _, PInf => True
  | PInf, _ => False
  | _, NInf => False
  | Fin x, Fin y => x <= y
  end.

Definition flt (a b : fnum) : Prop := fgtb b a = true.

End Num.

Import Num.

(** ** The numpy and pandas operations the two functions call *)

Module Numpy.

(** [np.linspace(start, stop, num)]: [num] samples [start + i * step]
    with [step = (stop - start) / (num - 1)], the last one then
    overwritten with [stop] itself. *)
Definition linspace (start stop : Q) (num : nat) : list Q :=
  let div := (num - 1)%nat in
  let step := (stop - start) / inject_Z (Z.of_nat div) in
  let y := map (fun i => inject_Z (Z.of_nat i) * step + start) (seq 0 num) in
  if (1 <? num)%nat then <[(num - 1)%nat := stop]> y else y.

Arguments linspace : simpl never.

(** [a.min()] and [a.max()] of a vector; numpy raises [ValueError] on an
    empty one. *)
Definition min (a : list Q) : outcome Q :=
  match a with
  | [] => Raised ValueError
  | x :: xs => Returned (foldl Qmin x xs)
  end.

Definition max (a : list Q) : outcome Q :=
  match a with
  | [] => Raised ValueError
  | x :: xs => Returned (foldl Qmax x xs)
  end.

(** [np.zeros(n)], [np.ones(n)] and [a.fill(v)]. *)
Definition zeros (n : nat) : list Q := replicate n 0.
Definition ones (n : nat) : list Q := replicate n 1.
Definition fill (a : list Q) (v : Q) : list Q := replicate (length a) v.

(** [np.eye(n)], by rows. *)
Definition eye (n : nat) : list (list Q) :=
  map (fun i => map (fun j => if (i =? j)%nat then 1 else 0) (seq 0 n)) (seq 0 n).

Definition neg_matrix (m : list (list Q)) : list (list Q) := map (map Qopp) m.

(** [np.array(rows).T] for a list of equally long rows.  The array of an
    empty list has shape [(0,)] and no element to index. *)
Definition transpose {A : Type} (d : A) (rows : list (list A)) : list (list A) :=
  match rows with
  | [] => []
  | r :: _ => map (fun j => map (fun row => nth j row d) rows) (seq 0 (length r))
  end.

(** The shape of a two-dimensional array given by its rows. *)
Definition shape {A : Type} (m : list (list A)) : nat * nat :=
  (length m, match m with [] => O | r :: _ => length r end).

End Numpy.

Module Pandas.

(** A table of numbers: the column labels and the rows, each row with
    one entry per column. *)
Record DataFrame : Type := {
  columns : list string;
  rows : list (list Q)
}.

(** [len(df)] is the number of rows; [df.empty] holds when an axis has
    length zero. *)
Definition len (df : DataFrame) : nat := length (rows df).

Definition empty (df : DataFrame) : bool :=
  ((len df =? 0) || (length (columns df) =? 0))%nat.

Definition column (df : DataFrame) (j : nat) : list Q :=
  map (fun r => nth j r 0) (rows df).

Definition Qnat (n : nat) : Q := inject_Z (Z.of_nat n).

(** [df.mean().values]: the arithmetic mean of each column. *)
Definition mean_of (xs : list Q) : Q := Qsum xs / Qnat (length xs).

Definition mean (df : DataFrame) : list Q :=
  map (fun j => mean_of (column df j)) (seq 0 (length (columns df))).

(** [df.cov().values]: the sample covariance (divisor [len(df) - 1]) of
    each pair of columns. *)
Definition cov_of (xs ys : list Q) : Q :=
  let mx := mean_of xs in
  let my := mean_of ys in
  Qsum (zip_with (fun x y => (x - mx) * (y - my)) xs ys)
  / Qnat (length xs - 1).

Definition cov (df : DataFrame) : list (list Q) :=
  let n := length (columns df) in
  map (fun i => map (fun j => cov_of (column df i) (column df j)) (seq 0 n))
      (seq 0 n).

(** The scan behind [Series.idxmin] and [Series.idxmax]: [nan] entries
    are skipped and the first position of the best value is kept. *)
Fixpoint idx_scan (better : fnum -> fnum -> bool) (xs : list fnum) (i : nat)
    (best : option (nat * fnum)) : option (nat * fnum) :=
  match xs with
  | [] => best
  | x :: xs' =>
      let best' :=
        if is_nan x then best
        else match best with
             | None => Some (i, x)
             | Some (_, b) => if better x b then Some (i, x) else best
             end in
      idx_scan better xs' (S i) best'
  end.

(** On a column with no value other than [nan] the lookup that follows
    cannot succeed: pandas raises (a [ValueError] from [idxmin] itself in
    pandas 3, a [KeyError] from [.loc] before). *)
Definition idx_result (r : option (nat * fnum)) : outcome nat :=
  match r with
  | Some (i, _) => Returned i
  | None => Raised ValueError
  end.

Definition idxmin (xs : list fnum) : outcome nat :=
  idx_result (idx_scan fltb xs 0%nat None).

Definition idxmax (xs : list fnum) : outcome nat :=
  idx_result (idx_scan fgtb xs 0%nat None).

(** [df.loc[i]] on a table with the default index [0..n-1]. *)
Definition loc {A : Type} (df : list A) (i : nat) : outcome A :=
  match df !! i with
  | Some r => Returned r
  | None => Raised KeyError
  end.

End Pandas.

(** ** [portfolio_optimization_utils.py] *)

Module Optimizer.

Import Pandas.

(** The [weight_bounds] argument: a tuple of numbers, a list of
    [(min_w, max_w)] pairs, or any other object.  The elements have the
    types of the docstring: a tuple that holds something other than
    numbers, or a list that holds something other than pairs, makes lines
    57-63 raise and is not a value of this type. *)
Inductive weight_bounds_t : Type :=
| BoundsTuple (xs : list Q)
| BoundsList (xs : list (Q * Q))
| BoundsOther.

(** The quadratic program handed to [solvers.qp(P, q, G, h, A, b)]:
    minimise [1/2 x'Px + q'x] subject to [Gx <= h] and [Ax = b]. *)
Record qp_problem : Type := {
  qp_P : list (list Q);
  qp_q : list Q;
  qp_G : list (list Q);
  qp_h : list Q;
  qp_A : list (list Q);
  qp_b : list Q
}.

(** What the solver call does: it returns a solution dictionary, of
    which the code reads ['status'] and ['x'], or it raises. *)
Inductive qp_outcome : Type :=
| QpSol (status : string) (x : list Q)
| QpRaise (e : exn).

(** A row of the efficient frontier: the dictionary with the keys
    ['return'], ['risk'], ['sharpe'] and one key ['weight_<asset>'] per
    asset.  No weight key is one of the first three, so the weights are
    kept as a dictionary of their own. *)
Record frontier_row : Type := {
  row_return : Q;
  row_risk : fnum;
  row_sharpe : fnum;
  row_weights : gmap string Q
}.

(** A distinguished portfolio: the dictionary with the keys ['weights']
    (itself a dictionary keyed by asset), ['return'], ['risk'] and
    ['sharpe']. *)
Record portfolio : Type := {
  weights : gmap string Q;
  return_ : Q;
  risk : fnum;
  sharpe : fnum
}.

(** The dictionary the function returns. *)
Record result : Type := {
  efficient_frontier : list frontier_row;
  max_sharpe_portfolio : option portfolio;
  min_variance_portfolio : option portfolio
}.

(** The loop variables of the sweep. *)
Record sweep_state : Type := {
  st_frontier : list frontier_row;
  st_max_sharpe_portfolio : option portfolio;
  st_max_sharpe_ratio : fnum
}.

Definition num_target_returns : nat := 100.

Definition weight_key (asset : string) : string := "weight_" +:+ asset.

Definition error_message : string :=
  "Error: Not enough data for portfolio optimization.".

Definition warning_message : string :=
  "Warning: Invalid weight_bounds format. Using default (0.0, 1.0) for all assets.".

(** Lines 52-68: the vectors of lower and upper bounds, with the lines
    printed on the way. *)
Definition bound_vectors (num_assets : nat) (weight_bounds : weight_bounds_t)
    : list string * (list Q * list Q) :=
  let min_weights := Numpy.zeros num_assets in
  let max_weights := Numpy.ones num_assets in
  let fallback :=
    ([warning_message], (Numpy.fill min_weights 0, Numpy.fill max_weights 1)) in
  match weight_bounds with
  | BoundsTuple [min_w; max_w] =>
      ([], (Numpy.fill min_weights min_w, Numpy.fill max_weights max_w))
  | BoundsTuple _ => fallback
  | BoundsList l =>
      if (length l =? num_assets)%nat then
        ([], foldl (fun mm ib => (<[ib.1 := ib.2.1]> mm.1, <[ib.1 := ib.2.2]> mm.2))
                   (min_weights, max_weights) (imap pair l))
      else fallback
  | BoundsOther => fallback
  end.

Section WithSolver.

(** The numerical square root and the solver. *)
Variable sqrtQ : Q -> Q.
Variable qp : qp_problem -> qp_outcome.

Section Sweep.

Variable columns : list string.
Variable mu : list Q.
Variable sigma : list (list Q).
Variable risk_free_rate : Q.
Variable G : list (list Q).
Variable h : list Q.

Definition num_assets : nat := length mu.

(** Lines 97-105: the program for one target return. *)
Definition qp_for (r_target : Q) : qp_problem :=
  let P := sigma in
  let q := Numpy.zeros num_assets in
  let A := Numpy.ones num_assets in
  let b := 1 in
  {| qp_P := P; qp_q := q; qp_G := G; qp_h := h;
     qp_A := [A; mu]; qp_b := [b; r_target] |}.

(** Lines 108-110. *)
Definition portfolio_return (w : list Q) : Q := Qdot w mu.

Definition portfolio_risk (w : list Q) : fnum :=
  fsqrt sqrtQ (Fin (Qdot w (Qmatvec sigma w))).

Definition sharpe_ratio (w : list Q) : fnum :=
  if fgtb (portfolio_risk w) (Fin 0)
  then fdiv (Fin (portfolio_return w - risk_free_rate)) (portfolio_risk w)
  else NInf.

(** Lines 112-117. *)
Definition row_of (w : list Q) : frontier_row :=
  {| row_return := portfolio_return w;
     row_risk := portfolio_risk w;
     row_sharpe := sharpe_ratio w;
     row_weights := dict_of_items (zip (map weight_key columns) w) |}.

(** Lines 121-126. *)
Definition portfolio_of (w : list Q) : portfolio :=
  {| weights := dict_of_items (zip columns w);
     return_ := portfolio_return w;
     risk := portfolio_risk w;
     sharpe := sharpe_ratio w |}.

(** Lines 107-126: a solution with status ['optimal'].  [np.dot]
    raises [ValueError] on vectors of different lengths, inside the
    [try]. *)
Definition record_solution (st : sweep_state) (w : list Q) : sweep_state :=
  if (length w =? num_assets)%nat then
    let st' :=
      {| st_frontier := st_frontier st ++ [row_of w];
         st_max_sharpe_portfolio := st_max_sharpe_portfolio st;
         st_max_sharpe_ratio := st_max_sharpe_ratio st |} in
    if fgtb (sharpe_ratio w) (st_max_sharpe_ratio st) then
      {| st_frontier := st_frontier st';
         st_max_sharpe_portfolio := Some (portfolio_of w);
         st_max_sharpe_ratio := sharpe_ratio w |}
    else st'
  else st.

(** Lines 93-130: the body of the loop.  Only [ValueError] is
    caught. *)
Definition sweep_step (st : sweep_state) (r_target : Q) : outcome sweep_state :=
  match qp (qp_for r_target) with
  | QpSol status x =>
      if String.eqb status "optimal"
      then Returned (record_solution st x)
      else Returned st
  | QpRaise ValueError => Returned st
  | QpRaise e => Raised e
  end.

Fixpoint sweep (target_returns : list Q) (st : sweep_state) : outcome sweep_state :=
  match target_returns with
  | [] => Returned st
  | r_target :: rest => st' ← sweep_step st r_target; sweep rest st'
  end.

(** Lines 141-146 and 152-157: a portfolio read back from a row of
    the frontier table. *)
Definition portfolio_of_row (row : frontier_row) : outcome portfolio :=
  items ← for_each
    (fun i =>
       match columns !! i with
       | None => Raised IndexError
       | Some c =>
           match row_weights row !! weight_key c with
           | None => Raised KeyError
           | Some w => Returned (c, w)
           end
       end)
    (seq 0 num_assets);
  Returned {| weights := dict_of_items items;
              return_ := row_return row;
              risk := row_risk row;
              sharpe := row_sharpe row |}.

(** Lines 88-157. *)
Definition frontier_and_portfolios : outcome result :=
  min_return ← Numpy.min mu;
  max_return ← Numpy.max mu;
  let target_returns := Numpy.linspace min_return max_return num_target_returns in
  st ← sweep target_returns
         {| st_frontier := [];
            st_max_sharpe_portfolio := None;
            st_max_sharpe_ratio := NInf |};
  let efficient_frontier_df := st_frontier st in
  min_variance_portfolio ←
    match efficient_frontier_df with
    | [] => Returned None
    | _ =>
        i ← idxmin (map row_risk efficient_frontier_df);
        min_variance_row ← loc efficient_frontier_df i;
        p ← portfolio_of_row min_variance_row;
        Returned (Some p)
    end;
  max_sharpe_portfolio ←
    match st_max_sharpe_portfolio st, efficient_frontier_df with
    | None, _ :: _ =>
        i ← idxmax (map row_sharpe efficient_frontier_df);
        max_sharpe_row ← loc efficient_frontier_df i;
        p ← portfolio_of_row max_sharpe_row;
        Returned (Some p)
    | found, _ => Returned found
    end;
  Returned {| efficient_frontier := efficient_frontier_df;
              max_sharpe_portfolio := max_sharpe_portfolio;
              min_variance_portfolio := min_variance_portfolio |}.

End Sweep.

(** The function: the lines it prints and what it returns ([None] is
    Python's [None]) or raises. *)
Definition optimize_portfolio (returns_df : DataFrame) (risk_free_rate : Q)
    (weight_bounds : weight_bounds_t) : list string * outcome (option result) :=
  if empty returns_df || (len returns_df <? 2)%nat then
    ([error_message], Returned None)
  else
    let mu := mean returns_df in
    let sigma := cov returns_df in
    let num_assets := length mu in
    let '(printed, (min_weights, max_weights)) :=
      bound_vectors num_assets weight_bounds in
    let G := Numpy.neg_matrix (Numpy.eye num_assets) ++ Numpy.eye num_assets in
    let h := map Qopp min_weights ++ max_weights in
    (printed,
     r ← frontier_and_portfolios (columns returns_df) mu sigma risk_free_rate G h;
     Returned (Some r)).

End WithSolver.

End Optimizer.

(** ** [random_portfolios_gen.py] *)

Module Generator.

(** [expected_returns]: a labelled [pd.Series] or a plain array. *)
Inductive expected_returns_t : Type :=
| Series (items : list (string * Q))
| Array (values : list Q).

(** The table the function returns: the columns, in order, each with its
    label and its values. *)
Definition table : Type := list (string * list fnum).

(** The names bound in the module when the function runs: the two
    imports of lines 3-4 and the function itself. *)
Definition module_globals : list string := ["pd"; "np"; "return_portfolios"].

Definition global_name (name : string) : outcome unit :=
  if decide (name ∈ module_globals) then Returned () else Raised NameError.

Definition dimension_message : string :=
  "Error: Covariance matrix shape does not match the number of assets.".

Definition weight_label (asset : string) : string := asset +:+ "Weight".

(** Line 25: [f'Asset_{i+1}']. *)
Definition default_name (i : nat) : string := "Asset_" +:+ pretty (i + 1)%nat.

(** Lines 21-25. *)
Definition asset_names_of (expected_returns : expected_returns_t) : list string :=
  match expected_returns with
  | Series items => map fst items
  | Array values => map default_name (seq 0 (length values))
  end.

Definition values_of (expected_returns : expected_returns_t) : list Q :=
  match expected_returns with
  | Series items => map snd items
  | Array values => values
  end.

(** The lists the sampling loop appends to. *)
Record samples : Type := {
  port_returns : list fnum;
  port_volatility : list fnum;
  stock_weights : list (list fnum)
}.

Section WithRandom.

Variable sqrtQ : Q -> Q.

(** [np.random.random(k)] reads and advances the process-wide state of
    the generator and returns [k] numbers of [[0, 1)]. *)
Variable rng : Type.
Variable random : nat -> rng -> list Q * rng.

(** Line 48: [weights /= np.sum(weights)], element by element. *)
Definition normalize (weights : list Q) : list fnum :=
  let total := Qsum weights in
  map (fun w => fdiv (Fin w) (Fin total)) weights.

(** Lines 51 and 55. *)
Definition returns_of (expected_returns : list Q) (weights : list fnum) : fnum :=
  fdot weights (map Fin expected_returns).

Definition volatility_of (cov_matrix : list (list Q)) (weights : list fnum) : fnum :=
  fsqrt sqrtQ (fdot weights (fmatvec (map (map Fin) cov_matrix) weights)).

(** Lines 44-59: the sampling loop. *)
Fixpoint sample (num_portfolios : nat) (expected_returns : list Q)
    (cov_matrix : list (list Q)) (acc : samples) (s : rng) : samples * rng :=
  match num_portfolios with
  | O => (acc, s)
  | S remaining =>
      let '(drawn, s') := random (length expected_returns) s in
      let weights := normalize drawn in
      let returns := returns_of expected_returns weights in
      let volatility := volatility_of cov_matrix weights in
      sample remaining expected_returns cov_matrix
        {| port_returns := port_returns acc ++ [returns];
           port_volatility := port_volatility acc ++ [volatility];
           stock_weights := stock_weights acc ++ [weights] |}
        s'
  end.

(** Lines 67-70: one entry per asset is written into the dictionary
    of columns; a label already present is overwritten. *)
Fixpoint add_weight_columns (weights_per_asset : list (list fnum))
    (named : list (nat * string)) (portfolio : gmap string (list fnum))
    : outcome (gmap string (list fnum)) :=
  match named with
  | [] => Returned portfolio
  | (i, asset_name) :: rest =>
      match weights_per_asset !! i with
      | None => Raised IndexError
      | Some col =>
          add_weight_columns weights_per_asset rest
            (<[weight_label asset_name := col]> portfolio)
      end
  end.

(** Line 79: [df[column_order]]. *)
Definition select_columns (portfolio : gmap string (list fnum))
    (column_order : list string) : outcome table :=
  for_each
    (fun label =>
       match portfolio !! label with
       | None => Raised KeyError
       | Some col => Returned (label, col)
       end)
    column_order.

(** Lines 61-79.  All the columns have one entry per sample, so that
    [pd.DataFrame] accepts the dictionary. *)
Definition assemble (asset_names : list string) (acc : samples) : outcome table :=
  let portfolio : gmap string (list fnum) :=
    <["Volatility" := port_volatility acc]>
      (<["Returns" := port_returns acc]> ∅) in
  let weights_per_asset := Numpy.transpose NaN (stock_weights acc) in
  portfolio ← add_weight_columns weights_per_asset (imap pair asset_names) portfolio;
  let weight_cols := map weight_label asset_names in
  let column_order := ["Returns"; "Volatility"] ++ weight_cols in
  select_columns portfolio column_order.

(** The function: the lines written to [sys.stderr], what it returns
    ([None] is Python's [None]) or raises, and the state the generator
    is left in.  The first argument of [print] cannot be written before
    the name [sys] of its [file] argument is looked up. *)
Definition return_portfolios (expected_returns : expected_returns_t)
    (cov_matrix : list (list Q)) (num_portfolios : nat) (s : rng)
    : list string * outcome (option table) * rng :=
  let asset_names := asset_names_of expected_returns in
  let expected_returns := values_of expected_returns in
  let num_assets := length expected_returns in
  if negb (bool_decide (Numpy.shape cov_matrix = (num_assets, num_assets))) then
    match global_name "sys" with
    | Raised e => ([], Raised e, s)
    | Returned _ => ([dimension_message], Returned None, s)
    end
  else
    let '(acc, s') :=
      sample num_portfolios expected_returns cov_matrix
        {| port_returns := []; port_volatility := []; stock_weights := [] |} s in
    ([], (df ← assemble asset_names acc; Returned (Some df)), s').

End WithRandom.

End Generator.

(** ** Concrete instances of the parameters

    They are used to run the two functions on concrete inputs. *)

Module Concrete.

Import Optimizer.

(** A square root that is exact on the squares of rationals and rounds
    down to a multiple of [1/1000000] otherwise. *)
Definition sqrt_floor (q : Q) : Q :=
  let q := Qred q in
  let n := Qnum q in
  let d := Zpos (Qden q) in
  let exact := Z.sqrt (n * d) in
  if (exact * exact =? n * d)%Z then Qred (exact # Qden q)
  else Qred (Z.sqrt (n * d * 1000000000000) # (Qden q * 1000000)).

(** The solver for two assets.  The two equality constraints determine
    the weights, so that the program has at most one feasible point: it
    is the solution when it meets the inequality constraints.  When the
    equality matrix is singular cvxopt raises [ValueError]. *)
Definition qp_two_assets (p : qp_problem) : qp_outcome :=
  match qp_A p, qp_b p with
  | [[a11; a12]; [a21; a22]], [b1; b2] =>
      let det := a11 * a22 - a12 * a21 in
      if Qeq_bool det 0 then QpRaise ValueError
      else
        let x := [Qred ((b1 * a22 - a12 * b2) / det);
                  Qred ((a11 * b2 - b1 * a21) / det)] in
        if forallb (fun gh => Qle_bool gh.1 gh.2) (zip (Qmatvec (qp_G p) x) (qp_h p))
        then QpSol "optimal" x
        else QpSol "unknown" x
  | _, _ => QpRaise (OtherError "TypeError")
  end.

(** A generator that hands out the draws of a prepared list, one vector
    per call, whatever the length asked for. *)
Definition random_from_list (k : nat) (s : list (list Q)) : list Q * list (list Q) :=
  match s with
  | [] => (replicate k 0, [])
  | d :: s' => (d, s')
  end.

(** A table of three observations of two assets, one with three equal
    observations (every portfolio is riskless), and the table of the
    scenario of two assets with equal mean returns. *)
Definition demo_returns : Pandas.DataFrame :=
  {| Pandas.columns := ["A"; "B"];
     Pandas.rows := [[0; 2]; [2; 0]; [1; 4]] |}.

Definition riskless_returns : Pandas.DataFrame :=
  {| Pandas.columns := ["A"; "B"];
     Pandas.rows := [[1; 2]; [1; 2]; [1; 2]] |}.

Definition equal_means_returns : Pandas.DataFrame :=
  {| Pandas.columns := ["A"; "B"];
     Pandas.rows := [[1 # 100; 2 # 100]; [2 # 100; 1 # 100]; [15 # 1000; 15 # 1000]] |}.

Definition no_result : result :=
  {| efficient_frontier := []; max_sharpe_portfolio := None;
     min_variance_portfolio := None |}.

(** What the function returns on a table, with the concrete solver and
    square root, a risk-free rate of zero and the bounds [(0, 1)]. *)
Definition result_on (df : Pandas.DataFrame) : result :=
  match (optimize_portfolio sqrt_floor qp_two_assets df 0 (BoundsTuple [0; 1])).2 with
  | Returned (Some r) => r
  | _ => no_result
  end.

(** A table of one observation. *)
Definition single_row_returns : Pandas.DataFrame :=
  {| Pandas.columns := ["A"; "B"]; Pandas.rows := [[1 # 100; 2 # 100]] |}.

(** The first row of the frontier of a result. *)
Definition first_row (r : result) : frontier_row :=
  match efficient_frontier r with
  | row :: _ => row
  | [] => {| row_return := 0; row_risk := NaN; row_sharpe := NaN; row_weights := ∅ |}
  end.

(** Expected returns and covariances of two assets for the generator, and
    the generator run on them with prepared draws. *)
Definition demo_expected : Generator.expected_returns_t :=
  Generator.Array [1 # 10; 2 # 10].

Definition demo_cov : list (list Q) := [[4 # 100; 1 # 100]; [1 # 100; 9 # 100]].

Definition generate_from (expected_returns : Generator.expected_returns_t)
    (cov_matrix : list (list Q)) (num_portfolios : nat) (prepared : list (list Q))
    : list string * outcome (option Generator.table) * list (list Q) :=
  Generator.return_portfolios sqrt_floor (list (list Q)) random_from_list
    expected_returns cov_matrix num_portfolios prepared.

(** Two prepared draws of [[0, 1)] with a positive sum. *)
Definition demo_draws : list (list Q) := [[1 # 2; 1 # 2]; [1 # 4; 3 # 4]].

End Concrete.

(** ** Specification vocabulary *)

Module Spec.

Import Optimizer.

(** [i] is the first position of a greatest element of [xs] for the
    order [le] with strict part [lt]. *)
Definition first_best {A : Type} (le lt : A -> A -> Prop) (xs : list A) (i : nat) : Prop :=
  exists v,
    xs !! i = Some v
    /\ (forall j u, xs !! j = Some u -> le u v)
    /\ (forall j u, (j < i)%nat -> xs !! j = Some u -> lt u v).

(** The first position of the largest, and of the smallest, number of a
    list. *)
Definition first_max (xs : list fnum) (i : nat) : Prop :=
  first_best fle flt xs i.

Definition first_min (xs : list fnum) (i : nat) : Prop :=
  first_best (fun u v => fle v u) (fun u v => flt v u) xs i.

(** A portfolio record and a frontier row describe the same point. *)
Definition same_point (p : portfolio) (row : frontier_row) : Prop :=
  return_ p = row_return row
  /\ risk p = row_risk row
  /\ sharpe p = row_sharpe row
  /\ forall asset, weights p !! asset = row_weights row !! weight_key asset.

(** The weights the solver delivers for a target return, when the
    target is kept: the status is ['optimal'] and there is one weight per
    asset. *)
Definition kept_weights (qp : qp_problem -> qp_outcome) (mu : list Q)
    (sigma G : list (list Q)) (h : list Q) (r_target : Q) : option (list Q) :=
  match qp (qp_for mu sigma G h r_target) with
  | QpSol status x =>
      if String.eqb status "optimal" && (length x =? length mu)%nat
      then Some x else None
  | QpRaise _ => None
  end.

(** The solver raises nothing but [ValueError] on the target. *)
Definition solver_quiet (qp : qp_problem -> qp_outcome) (mu : list Q)
    (sigma G : list (list Q)) (h : list Q) (r_target : Q) : Prop :=
  forall e, qp (qp_for mu sigma G h r_target) = QpRaise e -> e = ValueError.

(** The table passes the check of line 23. *)
Definition enough_data (df : Pandas.DataFrame) : Prop :=
  Pandas.empty df = false /\ (2 <= Pandas.len df)%nat.

(** The inequality constraints built from the bounds, lines 52-72. *)
Definition G_of (df : Pandas.DataFrame) : list (list Q) :=
  let n := length (Pandas.mean df) in
  Numpy.neg_matrix (Numpy.eye n) ++ Numpy.eye n.

Definition h_of (df : Pandas.DataFrame) (weight_bounds : weight_bounds_t) : list Q :=
  let b := (bound_vectors (length (Pandas.mean df)) weight_bounds).2 in
  map Qopp b.1 ++ b.2.



(** The program, the kept weights and the frontier row of a target return
    for a table of returns. *)
Definition program_for (df : Pandas.DataFrame) (weight_bounds : weight_bounds_t)
    (r_target : Q) : qp_problem :=
  qp_for (Pandas.mean df) (Pandas.cov df) (G_of df) (h_of df weight_bounds) r_target.

Definition kept_for (qp : qp_problem -> qp_outcome) (df : Pandas.DataFrame)
    (weight_bounds : weight_bounds_t) (r_target : Q) : option (list Q) :=
  kept_weights qp (Pandas.mean df) (Pandas.cov df) (G_of df) (h_of df weight_bounds)
    r_target.

Definition frontier_row_for (sqrtQ : Q -> Q) (df : Pandas.DataFrame)
    (risk_free_rate : Q) (w : list Q) : frontier_row :=
  row_of sqrtQ (Pandas.columns df) (Pandas.mean df) (Pandas.cov df) risk_free_rate w.

(** The solver raises nothing but [ValueError], whatever the target. *)
Definition quiet_for (qp : qp_problem -> qp_outcome) (df : Pandas.DataFrame)
    (weight_bounds : weight_bounds_t) : Prop :=
  forall r_target,
    solver_quiet qp (Pandas.mean df) (Pandas.cov df) (G_of df) (h_of df weight_bounds)
      r_target.

(** A value of [weight_bounds] that takes the fallback of lines 64-68. *)
Definition malformed (num_assets : nat) (weight_bounds : weight_bounds_t) : Prop :=
  match weight_bounds with
  | BoundsTuple xs => length xs <> 2%nat
  | BoundsList xs => length xs <> num_assets
  | BoundsOther => True
  end.

End Spec.

(** ** Specification vocabulary of the generator *)

Module GeneratorSpec.

Import Generator.

(** The vectors the sampling loop draws, in order, and the state it
    leaves the generator in. *)
Fixpoint draws_of {rng : Type} (random : nat -> rng -> list Q * rng)
    (num_portfolios num_assets : nat) (s : rng) : list (list Q) :=
  match num_portfolios with
  | O => []
  | S remaining =>
      (random num_assets s).1
      :: draws_of random remaining num_assets (random num_assets s).2
  end.

Fixpoint state_after {rng : Type} (random : nat -> rng -> list Q * rng)
    (num_portfolios num_assets : nat) (s : rng) : rng :=
  match num_portfolios with
  | O => s
  | S remaining => state_after random remaining num_assets (random num_assets s).2
  end.



(** Row [t] of a table, and its labels. *)
Definition table_row (T : table) (t : nat) : list fnum :=
  map (fun c => nth t c.2 NaN) T.

Definition labels (T : table) : list string := map fst T.



(** The dimensions of the covariance matrix match the expected returns. *)
Definition matching_dimensions (expected_returns : expected_returns_t)
    (cov_matrix : list (list Q)) : Prop :=
  Numpy.shape cov_matrix
  = (length (values_of expected_returns), length (values_of expected_returns)).

End GeneratorSpec.

(** ** Invariants of the scans and of the sweep *)

Module Invariants.

Import Pandas Optimizer Spec.

Section Scan.

Variable better : fnum -> fnum -> bool.
Variable le : fnum -> fnum -> Prop.

(** What the scan knows after the prefix [l]. *)
Definition scanned (l : list fnum) (best : option (nat * fnum)) : Prop :=
  match best with
  | None => Forall (fun u => is_nan u = true) l
  | Some (j, v) =>
      l !! j = Some v
      /\ is_nan v = false
      /\ (forall k u, l !! k = Some u -> is_nan u = false -> le u v)
      /\ (forall k u, (k < j)%nat -> l !! k = Some u -> is_nan u = false ->
                      better v u = true)
  end.

End Scan.

Section Sweep.

Variable sqrtQ : Q -> Q.
Variable columns : list string.
Variable mu : list Q.
Variable sigma : list (list Q).
Variable risk_free_rate : Q.

Abbreviation n_assets := (num_assets mu).
Abbreviation sharpe_of := (sharpe_ratio sqrtQ mu sigma risk_free_rate).
Abbreviation row := (row_of sqrtQ columns mu sigma risk_free_rate).
Abbreviation pf := (portfolio_of sqrtQ columns mu sigma risk_free_rate).

(** Every row of the frontier is the row of a vector of weights, one per
    asset. *)
Definition rows_of_weights (F : list frontier_row) : Prop :=
  Forall (fun r => exists w, r = row w /\ length w = n_assets) F.

(** The running maximum is the first greatest Sharpe ratio seen, when
    one above [-inf] was seen. *)
Definition tracked (st : sweep_state) : Prop :=
  match st_max_sharpe_portfolio st with
  | None =>
      st_max_sharpe_ratio st = NInf
      /\ Forall (fun r => row_sharpe r = NInf) (st_frontier st)
  | Some p =>
      exists i w,
        st_frontier st !! i = Some (row w)
        /\ length w = n_assets
        /\ p = pf w
        /\ st_max_sharpe_ratio st = sharpe_of w
        /\ first_max (map row_sharpe (st_frontier st)) i
  end.

Definition sweep_inv (st : sweep_state) : Prop :=
  rows_of_weights (st_frontier st) /\ tracked st.

(** The loop variables before the first target. *)
Definition initial_state : sweep_state :=
  {| st_frontier := [];
     st_max_sharpe_portfolio := None;
     st_max_sharpe_ratio := NInf |}.

(** What the function reports about a frontier [F]. *)
Definition selected (r : result) : Prop :=
  let F := efficient_frontier r in
  match F with
  | [] => max_sharpe_portfolio r = None /\ min_variance_portfolio r = None
  | _ =>
      (exists i w, F !! i = Some (row w)
         /\ max_sharpe_portfolio r = Some (pf w)
         /\ first_max (map row_sharpe F) i)
      /\ (exists i w, F !! i = Some (row w)
         /\ min_variance_portfolio r = Some (pf w)
         /\ idxmin (map row_risk F) = Returned i
         /\ first_min (map row_risk F) i)
  end.

End Sweep.

End Invariants.

(** ** Reading a quadratic program *)

Module ProgramSpec.

Import Optimizer.

(** The constraints of [solvers.qp(P, q, G, h, A, b)] on a vector [x]:
    [G x <= h] and [A x = b], row by row. *)
Definition meets_inequalities (p : qp_problem) (x : list Q) : Prop :=
  Forall2 Qle (Qmatvec (qp_G p) x) (qp_h p).

Definition meets_equalities (p : qp_problem) (x : list Q) : Prop :=
  Forall2 Qeq (Qmatvec (qp_A p) x) (qp_b p).

(** Every weight lies between its lower and its upper bound. *)
Definition within_bounds (min_weights max_weights x : list Q) : Prop :=
  Forall2 Qle min_weights x /\ Forall2 Qle x max_weights.

(** What a portfolio record shows apart from its Sharpe ratio. *)
Definition allocation (p : portfolio) : gmap string Q * Q * fnum :=
  (weights p, return_ p, risk p).

End ProgramSpec.

(** ** Further concrete inputs *)

Module MoreConcrete.

Import Optimizer Concrete.


(** What the function returns on a table for a risk-free rate, with the
    concrete solver and square root and the bounds [(0, 1)]. *)
Definition result_at (risk_free_rate : Q) (df : Pandas.DataFrame) : result :=
  match (optimize_portfolio sqrt_floor qp_two_assets df risk_free_rate
           (BoundsTuple [0; 1])).2 with
  | Returned (Some r) => r
  | _ => no_result
  end.

Definition no_portfolio : portfolio :=
  {| weights := ∅; return_ := 0; risk := NaN; sharpe := NaN |}.

(** The two portfolios of the result on the demonstration table. *)
Definition demo_max_sharpe : portfolio :=
  default no_portfolio (max_sharpe_portfolio (result_on demo_returns)).

Definition demo_min_variance : portfolio :=
  default no_portfolio (min_variance_portfolio (result_on demo_returns)).

(** Bounds for two assets given per asset. *)
Definition demo_bounds : list (Q * Q) := [(0, 1 # 2); (1 # 4, 1)].

End MoreConcrete.

(** ** Properties of the numbers *)

Module NumFacts.

Lemma Qltb_lt (a b : Q) : Qltb a b = true <-> a < b.
Proof.
  unfold Qltb. rewrite negb_true_iff.
  destruct (Qle_bool b a) eqn:E.
  - apply Qle_bool_iff in E. split; [discriminate|]. intros H.
    exfalso. apply (Qlt_irrefl a). eapply Qlt_le_trans; eauto.
  - split; [|reflexivity]. intros _. apply Qnot_le_lt. intros H.
    apply Qle_bool_iff in H. congruence.
Qed.

Lemma Qltb_ge (a b : Q) : Qltb a b = false <-> b <= a.
Proof.
  unfold Qltb. rewrite negb_false_iff. apply Qle_bool_iff.
Qed.

Lemma fle_refl (a : fnum) : is_nan a = false -> fle a a.
Proof. destruct a; simpl; try done. intros _. apply Qle_refl. Qed.

Lemma fle_trans (a b c : fnum) : fle a b -> fle b c -> fle a c.
Proof.
  destruct a, b, c; simpl; try done. apply Qle_trans.
Qed.

Lemma fle_not_nan_l (a b : fnum) : fle a b -> is_nan a = false.
Proof. destruct a, b; simpl; done. Qed.

Lemma fle_not_nan_r (a b : fnum) : fle a b -> is_nan b = false.
Proof. destruct a, b; simpl; done. Qed.

Lemma fgtb_fle (a b : fnum) : fgtb a b = true -> fle b a.
Proof.
  destruct a, b; simpl; try done.
  intros H. apply Qltb_lt in H. by apply Qlt_le_weak.
Qed.

Lemma not_fgtb_fle (a b : fnum) :
  is_nan a = false -> is_nan b = false -> fgtb a b = false -> fle a b.
Proof.
  destruct a, b; simpl; try done.
  intros _ _ H. by apply Qltb_ge in H.
Qed.

Lemma fgtb_fle_trans (a b c : fnum) :
  fgtb a b = true -> fle c b -> fgtb a c = true.
Proof.
  destruct a, b, c; simpl; try done.
  rewrite !Qltb_lt. intros H1 H2. eapply Qle_lt_trans; eauto.
Qed.

Lemma fgtb_irrefl (a : fnum) : fgtb a a = false.
Proof.
  destruct a; simpl; try done. apply Qltb_ge, Qle_refl.
Qed.

Lemma fgtb_not_fle (a b : fnum) : fgtb a b = true -> ~ fle a b.
Proof.
  destruct a, b; simpl; try done; try tauto.
  rewrite Qltb_lt. intros H1 H2. apply (Qlt_irrefl q0).
  eapply Qlt_le_trans; eauto.
Qed.

Lemma fgtb_NInf (a : fnum) :
  is_nan a = false -> fgtb a NInf = false -> a = NInf.
Proof. destruct a; simpl; done. Qed.

End NumFacts.

(** ** Properties of the pandas and numpy operations *)

Module PandasFacts.

Import Pandas NumFacts.

Section Scan.

(** [better x b] says that [x] is strictly above [b] in the order
    [le]; both ignore [nan]. *)
Variable better : fnum -> fnum -> bool.
Variable le : fnum -> fnum -> Prop.
Hypothesis le_total : forall x b,
  is_nan x = false -> is_nan b = false -> better x b = false -> le x b.
Hypothesis better_le : forall x b, better x b = true -> le b x.
Hypothesis le_trans : forall a b c, le a b -> le b c -> le a c.
Hypothesis le_refl : forall a, is_nan a = false -> le a a.
Hypothesis better_le_trans : forall x b y,
  better x b = true -> le y b -> better x y = true.

Abbreviation scanned := (Invariants.scanned better le).

Lemma scanned_snoc (l : list fnum) (best : option (nat * fnum)) (x : fnum) :
  scanned l best ->
  scanned (l ++ [x])
    (if is_nan x then best
     else match best with
          | None => Some (length l, x)
          | Some (_, b) => if better x b then Some (length l, x) else best
          end).
Proof.
  intros Hs. destruct (is_nan x) eqn:Ex.
  - destruct best as [[j v]|]; simpl in *.
    + destruct Hs as (Hj & Hv & Hle & Hlt). repeat split.
      * by apply lookup_app_l_Some.
      * done.
      * intros k u Hk Hu. apply lookup_app_Some in Hk as [Hk|[_ Hk]].
        -- eauto.
        -- apply list_lookup_singleton_Some in Hk as [_ <-]. congruence.
      * intros k u Hkj Hk Hu. apply lookup_app_Some in Hk as [Hk|[Hge Hk]].
        -- eauto.
        -- apply lookup_lt_Some in Hj. lia.
    + apply Forall_app. split; [done|]. by constructor.
  - destruct best as [[j v]|]; simpl in *.
    + destruct Hs as (Hj & Hv & Hle & Hlt).
      destruct (better x v) eqn:Eb; simpl.
      * repeat split.
        -- rewrite lookup_app_r by lia. by rewrite Nat.sub_diag.
        -- done.
        -- intros k u Hk Hu. apply lookup_app_Some in Hk as [Hk|[_ Hk]].
           ++ eapply le_trans; [eapply Hle; eauto|]. by apply better_le.
           ++ apply list_lookup_singleton_Some in Hk as [_ <-]. by apply le_refl.
        -- intros k u Hkj Hk Hu. apply lookup_app_Some in Hk as [Hk|[Hge Hk]]; [|lia].
           eapply better_le_trans; eauto.
      * repeat split.
        -- by apply lookup_app_l_Some.
        -- done.
        -- intros k u Hk Hu. apply lookup_app_Some in Hk as [Hk|[_ Hk]].
           ++ eauto.
           ++ apply list_lookup_singleton_Some in Hk as [_ <-]. by apply le_total.
        -- intros k u Hkj Hk Hu. apply lookup_app_Some in Hk as [Hk|[Hge Hk]].
           ++ eauto.
           ++ apply lookup_lt_Some in Hj. lia.
    + repeat split.
      * rewrite lookup_app_r by lia. by rewrite Nat.sub_diag.
      * done.
      * intros k u Hk Hu. apply lookup_app_Some in Hk as [Hk|[_ Hk]].
        -- apply list_elem_of_lookup_2 in Hk. rewrite Forall_forall in Hs.
           apply Hs in Hk. congruence.
        -- apply list_lookup_singleton_Some in Hk as [_ <-]. by apply le_refl.
      * intros k u Hkj Hk Hu. apply lookup_app_Some in Hk as [Hk|[Hge Hk]]; [|lia].
        apply list_elem_of_lookup_2 in Hk. rewrite Forall_forall in Hs.
        apply Hs in Hk. congruence.
Qed.

Lemma idx_scan_scanned (xs l : list fnum) (best : option (nat * fnum)) :
  scanned l best ->
  scanned (l ++ xs) (idx_scan better xs (length l) best).
Proof.
  revert l best. induction xs as [|x xs IH]; intros l best Hs; simpl.
  - by rewrite app_nil_r.
  - replace (l ++ x :: xs) with ((l ++ [x]) ++ xs) by by rewrite <- app_assoc.
    replace (S (length l)) with (length (l ++ [x])) by (rewrite length_app; simpl; lia).
    apply IH. by apply scanned_snoc.
Qed.

(** On a list that holds a number the scan finds the first position
    of a best one. *)
Lemma idx_scan_first_best (xs : list fnum) :
  Forall (fun u => is_nan u = false) xs -> xs <> [] ->
  exists i v, idx_scan better xs 0 None = Some (i, v)
    /\ Spec.first_best le (fun u w => better w u = true) xs i.
Proof.
  intros Hnan Hne.
  pose proof (idx_scan_scanned xs [] None) as Hs. simpl in Hs.
  specialize (Hs (Forall_nil_2 _)).
  destruct (idx_scan better xs 0 None) as [[i v]|] eqn:E; simpl in Hs.
  - exists i, v. split; [done|]. destruct Hs as (Hi & Hv & Hle & Hlt).
    exists v. repeat split; [done|..].
    + intros j u Hj. eapply Hle; eauto.
      rewrite Forall_forall in Hnan. apply Hnan. by eapply list_elem_of_lookup_2.
    + intros j u Hji Hj. eapply Hlt; eauto.
      rewrite Forall_forall in Hnan. apply Hnan. by eapply list_elem_of_lookup_2.
  - destruct xs as [|x xs]; [done|].
    apply Forall_cons in Hs as [Hx _]. apply Forall_cons in Hnan as [Hx' _].
    congruence.
Qed.

End Scan.

Lemma idxmax_first_max (xs : list fnum) :
  Forall (fun u => is_nan u = false) xs -> xs <> [] ->
  exists i, idxmax xs = Returned i /\ Spec.first_max xs i.
Proof.
  intros Hnan Hne.
  destruct (idx_scan_first_best fgtb fle) with (xs := xs) as (i & v & E & Hb); try done.
  - intros; by apply not_fgtb_fle.
  - intros; by apply fgtb_fle.
  - apply fle_trans.
  - apply fle_refl.
  - apply fgtb_fle_trans.
  - exists i. split; [|done]. unfold idxmax. by rewrite E.
Qed.

Lemma idxmin_first_min (xs : list fnum) :
  Forall (fun u => is_nan u = false) xs -> xs <> [] ->
  exists i, idxmin xs = Returned i /\ Spec.first_min xs i.
Proof.
  intros Hnan Hne.
  destruct (idx_scan_first_best fltb (fun u v => fle v u)) with (xs := xs)
    as (i & v & E & Hb); try done.
  - intros x b Hx Hb H. by apply not_fgtb_fle.
  - intros x b H. by apply fgtb_fle.
  - intros a b c H1 H2. by eapply fle_trans.
  - apply fle_refl.
  - intros x b y H1 H2. unfold fltb in *.
    destruct x, b, y; simpl in *; try done.
    rewrite !Qltb_lt in *. eapply Qlt_le_trans; eauto.
  - exists i. split; [|done]. unfold idxmin. by rewrite E.
Qed.

End PandasFacts.

(** ** Properties of Python dictionaries and comprehensions *)

Module PyFacts.

Section Dict.

Context {V : Type}.

Abbreviation put := (fun (d : gmap string V) (kv : string * V) => <[kv.1 := kv.2]> d).

Lemma foldl_put_absent (items : list (string * V)) (acc : gmap string V) (k : string) :
  k ∉ map fst items -> foldl put acc items !! k = acc !! k.
Proof.
  revert acc. induction items as [|[k0 v0] items IH]; intros acc Hk; simpl; [done|].
  simpl in Hk. apply not_elem_of_cons in Hk as [Hne Hk].
  rewrite IH by done. by apply lookup_insert_ne.
Qed.

Lemma foldl_put_present (items : list (string * V)) (acc : gmap string V) (k : string) :
  k ∈ map fst items -> is_Some (foldl put acc items !! k).
Proof.
  revert acc. induction items as [|[k0 v0] items IH]; intros acc Hk; simpl in *.
  - by apply elem_of_nil in Hk.
  - destruct (decide (k ∈ map fst items)) as [Hin|Hout]; [by apply IH|].
    rewrite foldl_put_absent by done.
    apply elem_of_cons in Hk as [->|Hk]; [|done].
    rewrite lookup_insert_eq. by eexists.
Qed.

Lemma foldl_put_rename (f : string -> string) `{!Inj (=) (=) f}
    (items : list (string * V)) (acc acc' : gmap string V) :
  (forall k, acc' !! f k = acc !! k) ->
  forall k, foldl put acc' (map (fun kv => (f kv.1, kv.2)) items) !! f k
            = foldl put acc items !! k.
Proof.
  revert acc acc'. induction items as [|[k0 v0] items IH]; intros acc acc' Hacc k; simpl.
  - apply Hacc.
  - apply IH. intros k'. destruct (decide (k0 = k')) as [->|Hne].
    + by rewrite !lookup_insert_eq.
    + rewrite !lookup_insert_ne; [apply Hacc|done|].
      intros Heq. by apply (inj f) in Heq.
Qed.

Lemma foldl_put_fun (g : string -> V) (ks : list string) (acc : gmap string V)
    (k : string) :
  foldl put acc (map (fun c => (c, g c)) ks) !! k
  = if decide (k ∈ ks) then Some (g k) else acc !! k.
Proof.
  revert acc. induction ks as [|k0 ks IH]; intros acc; simpl.
  - destruct (decide (k ∈ [])) as [H|H]; [by apply elem_of_nil in H|done].
  - rewrite IH. destruct (decide (k ∈ ks)) as [Hin|Hout].
    + rewrite decide_True; [done|]. by apply elem_of_cons; right.
    + destruct (decide (k = k0)) as [->|Hne].
      * rewrite lookup_insert_eq. rewrite decide_True; [done|]. by apply elem_of_cons; left.
      * rewrite lookup_insert_ne by done. rewrite decide_False; [done|].
        intros [?|?]%elem_of_cons; done.
Qed.

End Dict.

Lemma zip_map_fst {A B C : Type} (f : A -> C) (ks : list A) (vs : list B) :
  zip (map f ks) vs = map (fun kv => (f kv.1, kv.2)) (zip ks vs).
Proof.
  revert vs. induction ks as [|k ks IH]; intros [|v vs]; simpl; try done.
  by rewrite IH.
Qed.

Lemma map_fst_zip {A B : Type} (ks : list A) (vs : list B) :
  length ks = length vs -> map fst (zip ks vs) = ks.
Proof.
  revert vs. induction ks as [|k ks IH]; intros [|v vs] H; simpl in *; try done.
  f_equal. apply IH. lia.
Qed.

(** The dictionary with renamed keys holds the values of the original
    one. *)
Lemma dict_of_items_rename {V : Type} (f : string -> string) `{!Inj (=) (=) f}
    (ks : list string) (vs : list V) (k : string) :
  dict_of_items (zip (map f ks) vs) !! f k = dict_of_items (zip ks vs) !! k.
Proof.
  unfold dict_of_items. rewrite zip_map_fst.
  apply (foldl_put_rename f). intros k'. by rewrite !lookup_empty.
Qed.

Lemma dict_of_items_zip_present {V : Type} (ks : list string) (vs : list V) (k : string) :
  length ks = length vs -> k ∈ ks -> is_Some (dict_of_items (zip ks vs) !! k).
Proof.
  intros Hlen Hk. apply foldl_put_present. by rewrite map_fst_zip.
Qed.

Lemma dict_of_items_zip_absent {V : Type} (ks : list string) (vs : list V) (k : string) :
  length ks = length vs -> k ∉ ks -> dict_of_items (zip ks vs) !! k = None.
Proof.
  intros Hlen Hk. unfold dict_of_items.
  rewrite foldl_put_absent; [apply lookup_empty|]. by rewrite map_fst_zip.
Qed.

Lemma for_each_ext {A B : Type} (f g : A -> outcome B) (xs : list A) :
  (forall x, x ∈ xs -> f x = g x) -> for_each f xs = for_each g xs.
Proof.
  induction xs as [|x xs IH]; intros H; simpl; [done|].
  rewrite H by (by left). rewrite IH; [done|].
  intros y Hy. apply H. by right.
Qed.

Lemma for_each_returned {A B : Type} (f : A -> B) (xs : list A) :
  for_each (fun x => Returned (f x)) xs = Returned (map f xs).
Proof.
  induction xs as [|x xs IH]; simpl; [done|]. by rewrite IH.
Qed.

End PyFacts.

(** ** Properties of the sweep *)

Module OptimizerFacts.

Import Pandas Optimizer NumFacts PandasFacts PyFacts Spec.

#[export] Instance weight_key_inj : Inj (=) (=) weight_key.
Proof. intros a b H. unfold weight_key in H. by apply (inj _) in H. Qed.

Section Sweep.

Variable sqrtQ : Q -> Q.
Variable qp : qp_problem -> qp_outcome.
Variable columns : list string.
Variable mu : list Q.
Variable sigma : list (list Q).
Variable risk_free_rate : Q.
Variable G : list (list Q).
Variable h : list Q.

Hypothesis columns_mu : length columns = length mu.

Abbreviation n_assets := (num_assets mu).
Abbreviation risk_of := (portfolio_risk sqrtQ sigma).
Abbreviation sharpe_of := (sharpe_ratio sqrtQ mu sigma risk_free_rate).
Abbreviation row := (row_of sqrtQ columns mu sigma risk_free_rate).
Abbreviation pf := (portfolio_of sqrtQ columns mu sigma risk_free_rate).
Abbreviation record := (record_solution sqrtQ columns mu sigma risk_free_rate).
Abbreviation step := (sweep_step sqrtQ qp columns mu sigma risk_free_rate G h).
Abbreviation run := (sweep sqrtQ qp columns mu sigma risk_free_rate G h).
Abbreviation kept := (kept_weights qp mu sigma G h).
Abbreviation quiet := (solver_quiet qp mu sigma G h).
Abbreviation rows_of_weights :=
  (Invariants.rows_of_weights sqrtQ columns mu sigma risk_free_rate).
Abbreviation tracked := (Invariants.tracked sqrtQ columns mu sigma risk_free_rate).
Abbreviation sweep_inv := (Invariants.sweep_inv sqrtQ columns mu sigma risk_free_rate).
Abbreviation selected := (Invariants.selected sqrtQ columns mu sigma risk_free_rate).
Abbreviation initial_state := Invariants.initial_state.

(** The Sharpe ratio of a point is a quotient of finite numbers with a
    positive divisor, or [-inf]. *)
Lemma sharpe_ratio_cases (w : list Q) :
  (exists s, risk_of w = Fin s /\ 0 < s
             /\ sharpe_of w = Fin ((portfolio_return mu w - risk_free_rate) / s))
  \/ (fgtb (risk_of w) (Fin 0) = false /\ sharpe_of w = NInf).
Proof.
  unfold sharpe_ratio. destruct (fgtb (risk_of w) (Fin 0)) eqn:E; [left|by right].
  destruct (risk_of w) as [| |s|] eqn:Er; simpl in E; try done.
  - apply Qltb_lt in E. exists s. repeat split; [done|]. simpl.
    destruct (Qeq_bool s 0) eqn:Ez; [|done].
    apply Qeq_bool_iff in Ez. rewrite Ez in E. by apply Qlt_irrefl in E.
  - unfold portfolio_risk, fsqrt in Er. by destruct (Qltb _ 0).
Qed.

Lemma sharpe_ratio_not_nan (w : list Q) : is_nan (sharpe_of w) = false.
Proof.
  destruct (sharpe_ratio_cases w) as [(s & _ & _ & ->)|[_ ->]]; done.
Qed.

(** Reading a row of the frontier back gives the portfolio of its
    weights. *)
Lemma same_point_of (w : list Q) : same_point (pf w) (row w).
Proof.
  repeat split. intros asset. simpl. symmetry. apply dict_of_items_rename, _.
Qed.

Lemma columns_lookup (w : list Q) (i : nat) :
  length w = n_assets -> (i < n_assets)%nat ->
  exists c v, columns !! i = Some c
    /\ row_weights (row w) !! weight_key c = Some v
    /\ dict_of_items (zip columns w) !! c = Some v.
Proof.
  intros Hw Hi. unfold num_assets in *.
  destruct (lookup_lt_is_Some_2 columns i) as [c Hc]; [lia|].
  destruct (dict_of_items_zip_present columns w c) as [v Hv]; [lia|..].
  { by eapply list_elem_of_lookup_2. }
  exists c, v. repeat split; [done| |done].
  simpl. by rewrite dict_of_items_rename by apply _.
Qed.

Lemma portfolio_of_row_of (w : list Q) :
  length w = n_assets ->
  portfolio_of_row columns mu (row w) = Returned (pf w).
Proof.
  intros Hw. unfold portfolio_of_row.
  set (g := fun c => default 0 (dict_of_items (zip columns w) !! c)).
  rewrite (for_each_ext _
    (fun i => Returned (default "" (columns !! i), g (default "" (columns !! i))))).
  2:{ intros i Hi. apply elem_of_seq in Hi.
      destruct (columns_lookup w i) as (c & v & Hc & Hr & Hd); [done|lia|].
      rewrite Hc, Hr. simpl. unfold g. by rewrite Hd. }
  rewrite for_each_returned. simpl. unfold portfolio_of. f_equal.
  assert (map (fun i => (default "" (columns !! i), g (default "" (columns !! i))))
              (seq 0 n_assets)
          = map (fun c => (c, g c)) columns) as ->.
  { unfold num_assets. rewrite <- columns_mu.
    apply list_eq. intros i. rewrite !list_lookup_fmap.
    destruct (decide (i < length columns)%nat) as [Hi|Hi].
    - rewrite lookup_seq_lt by done. simpl.
      destruct (lookup_lt_is_Some_2 columns i Hi) as [c Hc]. by rewrite Hc.
    - rewrite lookup_seq_ge by lia. by rewrite lookup_ge_None_2 by lia. }
  f_equal. apply map_eq. intros k. unfold dict_of_items at 1. rewrite foldl_put_fun.
  destruct (decide (k ∈ columns)) as [Hin|Hout].
  - destruct (dict_of_items_zip_present columns w k) as [v Hv]; [|done|].
    { unfold num_assets in Hw. lia. }
    unfold g. by rewrite Hv.
  - rewrite lookup_empty. symmetry. apply dict_of_items_zip_absent; [|done].
    unfold num_assets in Hw. lia.
Qed.

(** *** The invariant of the loop *)

Lemma rows_sharpe_not_nan (F : list frontier_row) :
  rows_of_weights F -> Forall (fun u => is_nan u = false) (map row_sharpe F).
Proof.
  intros HF. apply Forall_fmap. eapply Forall_impl; [exact HF|].
  intros r (w & -> & _). simpl. apply sharpe_ratio_not_nan.
Qed.

Lemma record_frontier (st : sweep_state) (w : list Q) :
  st_frontier (record st w)
  = if (length w =? n_assets)%nat then st_frontier st ++ [row w] else st_frontier st.
Proof.
  unfold record_solution. destruct (length w =? n_assets)%nat; [|done].
  by destruct (fgtb _ _).
Qed.

Lemma first_max_snoc_keep (xs : list fnum) (i : nat) (v x : fnum) :
  xs !! i = Some v -> first_max xs i -> fle x v -> first_max (xs ++ [x]) i.
Proof.
  intros Hi (v' & Hv' & Hle & Hlt) Hx.
  assert (v' = v) as -> by congruence.
  exists v. repeat split.
  - by apply lookup_app_l_Some.
  - intros j u Hj. apply lookup_app_Some in Hj as [Hj|[_ Hj]]; [eauto|].
    by apply list_lookup_singleton_Some in Hj as [_ <-].
  - intros j u Hji Hj. apply lookup_app_Some in Hj as [Hj|[Hge Hj]]; [eauto|].
    apply lookup_lt_Some in Hi. lia.
Qed.

Lemma first_max_snoc_new (xs : list fnum) (x : fnum) :
  (forall j u, xs !! j = Some u -> fgtb x u = true) ->
  is_nan x = false ->
  first_max (xs ++ [x]) (length xs).
Proof.
  intros Hall Hx. exists x. repeat split.
  - rewrite lookup_app_r by lia. by rewrite Nat.sub_diag.
  - intros j u Hj. apply lookup_app_Some in Hj as [Hj|[_ Hj]].
    + apply fgtb_fle. eauto.
    + apply list_lookup_singleton_Some in Hj as [_ <-]. by apply fle_refl.
  - intros j u Hji Hj. apply lookup_app_Some in Hj as [Hj|[Hge Hj]]; [|lia].
    unfold flt. eauto.
Qed.

Lemma record_inv (st : sweep_state) (w : list Q) :
  sweep_inv st -> sweep_inv (record st w).
Proof.
  intros [Hrows Htr]. unfold record_solution.
  destruct (length w =? n_assets)%nat eqn:El; [|done].
  apply Nat.eqb_eq in El.
  assert (rows_of_weights (st_frontier st ++ [row w])) as Hrows'.
  { apply Forall_app. split; [done|]. constructor; [|done]. by exists w. }
  pose proof (sharpe_ratio_not_nan w) as Hw.
  destruct (fgtb (sharpe_of w) (st_max_sharpe_ratio st)) eqn:Eg;
    (split; [done|]); unfold Invariants.tracked in *; simpl.
  - exists (length (st_frontier st)), w. repeat split; try done.
    + rewrite lookup_app_r by lia. by rewrite Nat.sub_diag.
    + rewrite fmap_app. simpl.
      replace (length (st_frontier st)) with (length (map row_sharpe (st_frontier st)))
        by apply length_fmap.
      apply first_max_snoc_new; [|done].
      intros j u Hj.
      destruct (st_max_sharpe_portfolio st) as [p|].
      * destruct Htr as (i & w0 & Hi & Hw0 & -> & Hmax & (v & Hv & Hle & _)).
        eapply fgtb_fle_trans; [exact Eg|]. rewrite Hmax.
        rewrite list_lookup_fmap, Hi in Hv. simpl in Hv.
        injection Hv as <-. eauto.
      * destruct Htr as [Hmax Hall]. rewrite Hmax in Eg.
        rewrite list_lookup_fmap in Hj.
        destruct (st_frontier st !! j) as [r|] eqn:Er; [|done].
        simpl in Hj. injection Hj as <-.
        rewrite Forall_forall in Hall. rewrite Hall; [done|].
        by eapply list_elem_of_lookup_2.
  - destruct (st_max_sharpe_portfolio st) as [p|].
    + destruct Htr as (i & w0 & Hi & Hw0 & -> & Hmax & Hfm).
      exists i, w0. repeat split; try done.
      * by apply lookup_app_l_Some.
      * rewrite fmap_app. simpl.
        apply first_max_snoc_keep with (v := sharpe_of w0); [|done|].
        -- by rewrite list_lookup_fmap, Hi.
        -- rewrite Hmax in Eg. apply not_fgtb_fle; [done| |done].
           apply sharpe_ratio_not_nan.
    + destruct Htr as [Hmax Hall]. split; [done|].
      apply Forall_app. split; [done|]. constructor; [|done].
      simpl. rewrite Hmax in Eg. by apply fgtb_NInf.
Qed.

(** *** One target return *)

Lemma sweep_step_kept (st : sweep_state) (r_target : Q) (w : list Q) :
  kept r_target = Some w ->
  length w = n_assets /\ step st r_target = Returned (record st w).
Proof.
  unfold kept_weights, sweep_step.
  destruct (qp _) as [status x|e]; [|done].
  destruct (String.eqb status "optimal"); simpl; [|done].
  destruct (length x =? length mu)%nat eqn:El; [|done].
  intros [= ->]. apply Nat.eqb_eq in El. done.
Qed.

Lemma sweep_step_skipped (st : sweep_state) (r_target : Q) :
  kept r_target = None ->
  step st r_target = Returned st
  \/ exists e, e <> ValueError
       /\ qp (qp_for mu sigma G h r_target) = QpRaise e
       /\ step st r_target = Raised e.
Proof.
  unfold kept_weights, sweep_step.
  destruct (qp _) as [status x|e].
  - destruct (String.eqb status "optimal"); simpl; [|by left].
    unfold record_solution, num_assets.
    destruct (length x =? length mu)%nat; [done|by left].
  - intros _. destruct e; [by left|right; eexists; by repeat split..].
Qed.

(** *** The whole sweep *)

Lemma sweep_returned (targets : list Q) (st st' : sweep_state) :
  run targets st = Returned st' ->
  st_frontier st' = st_frontier st ++ map row (omap kept targets)
  /\ (sweep_inv st -> sweep_inv st').
Proof.
  revert st. induction targets as [|r targets IH]; intros st; simpl.
  - intros [= ->]. by rewrite app_nil_r.
  - destruct (kept r) as [w|] eqn:Ek.
    + destruct (sweep_step_kept st r w Ek) as [Hw ->]. simpl.
      intros Hrun. apply IH in Hrun as [HF Hinv]. split.
      * rewrite HF, record_frontier. apply Nat.eqb_eq in Hw. rewrite Hw.
        by rewrite <- app_assoc.
      * intros Hst. by apply Hinv, record_inv.
    + destruct (sweep_step_skipped st r Ek) as [->|(e & _ & _ & ->)]; simpl; [|done].
      apply IH.
Qed.

Lemma sweep_quiet (targets : list Q) (st : sweep_state) :
  Forall quiet targets -> exists st', run targets st = Returned st'.
Proof.
  revert st. induction targets as [|r targets IH]; intros st Hq; simpl.
  - by eexists.
  - apply Forall_cons in Hq as [Hr Hq].
    destruct (kept r) as [w|] eqn:Ek.
    + destruct (sweep_step_kept st r w Ek) as [_ ->]. simpl. by apply IH.
    + destruct (sweep_step_skipped st r Ek) as [->|(e & Hne & He & _)]; simpl.
      * by apply IH.
      * by apply Hr in He.
Qed.


(** *** After the sweep *)

Section Selection.

(** The covariance matrix is positive semi-definite. *)
Hypothesis sigma_psd : forall w, 0 <= Qdot w (Qmatvec sigma w).

Lemma risk_not_nan (w : list Q) : is_nan (risk_of w) = false.
Proof.
  unfold portfolio_risk, fsqrt.
  destruct (Qltb _ 0) eqn:E; [|done].
  apply Qltb_lt in E. exfalso. apply (Qlt_irrefl 0).
  eapply Qle_lt_trans; [apply (sigma_psd w)|done].
Qed.

Lemma rows_risk_not_nan (F : list frontier_row) :
  rows_of_weights F -> Forall (fun u => is_nan u = false) (map row_risk F).
Proof.
  intros HF. apply Forall_fmap. eapply Forall_impl; [exact HF|].
  intros r (w & -> & _). simpl. apply risk_not_nan.
Qed.

Lemma first_best_row (le lt : fnum -> fnum -> Prop) (f : frontier_row -> fnum)
    (F : list frontier_row) (i : nat) :
  rows_of_weights F -> first_best le lt (map f F) i ->
  exists w, F !! i = Some (row w) /\ length w = n_assets.
Proof.
  intros HF (v & Hv & _). rewrite list_lookup_fmap in Hv.
  destruct (F !! i) as [r|] eqn:Er; [|done].
  unfold Invariants.rows_of_weights in HF. rewrite Forall_forall in HF.
  destruct (HF r) as (w & -> & Hw); [by eapply list_elem_of_lookup_2|].
  by exists w.
Qed.

Lemma select_min (F : list frontier_row) :
  rows_of_weights F -> F <> [] ->
  exists i w, F !! i = Some (row w) /\ first_min (map row_risk F) i
    /\ idxmin (map row_risk F) = Returned i
    /\ (i0 ← idxmin (map row_risk F);
        min_variance_row ← loc F i0;
        p ← portfolio_of_row columns mu min_variance_row;
        Returned (Some p)) = Returned (Some (pf w)).
Proof.
  intros HF Hne.
  destruct (idxmin_first_min (map row_risk F)) as (i & Ei & Hmin).
  { by apply rows_risk_not_nan. }
  { by destruct F. }
  destruct (first_best_row _ _ _ F i HF Hmin) as (w & Hi & Hw).
  exists i, w. repeat split; [done..|]. rewrite Ei.
  simpl. unfold loc. rewrite Hi. simpl. by rewrite portfolio_of_row_of.
Qed.

Lemma select_max (F : list frontier_row) :
  rows_of_weights F -> F <> [] ->
  exists i w, F !! i = Some (row w) /\ first_max (map row_sharpe F) i
    /\ (i0 ← idxmax (map row_sharpe F);
        max_sharpe_row ← loc F i0;
        p ← portfolio_of_row columns mu max_sharpe_row;
        Returned (Some p)) = Returned (Some (pf w)).
Proof.
  intros HF Hne.
  destruct (idxmax_first_max (map row_sharpe F)) as (i & -> & Hmax).
  { by apply rows_sharpe_not_nan. }
  { by destruct F. }
  destruct (first_best_row _ _ _ F i HF Hmax) as (w & Hi & Hw).
  exists i, w. repeat split; [done..|].
  simpl. unfold loc. rewrite Hi. simpl. by rewrite portfolio_of_row_of.
Qed.

Abbreviation targets_of lo hi := (Numpy.linspace lo hi num_target_returns).
Abbreviation whole :=
  (frontier_and_portfolios sqrtQ qp columns mu sigma risk_free_rate G h).

Lemma initial_inv : sweep_inv initial_state.
Proof. split; [constructor|]. by split. Qed.

(** The part of the function after the sweep returns, with the
    selection above. *)
Lemma after_sweep (st : sweep_state) :
  sweep_inv st ->
  exists r,
    (min_variance_portfolio ←
       match st_frontier st with
       | [] => Returned None
       | _ =>
           i ← idxmin (map row_risk (st_frontier st));
           min_variance_row ← loc (st_frontier st) i;
           p ← portfolio_of_row columns mu min_variance_row;
           Returned (Some p)
       end;
     max_sharpe_portfolio ←
       match st_max_sharpe_portfolio st, st_frontier st with
       | None, _ :: _ =>
           i ← idxmax (map row_sharpe (st_frontier st));
           max_sharpe_row ← loc (st_frontier st) i;
           p ← portfolio_of_row columns mu max_sharpe_row;
           Returned (Some p)
       | found, _ => Returned found
       end;
     Returned {| efficient_frontier := st_frontier st;
                 max_sharpe_portfolio := max_sharpe_portfolio;
                 min_variance_portfolio := min_variance_portfolio |})
    = Returned r
    /\ efficient_frontier r = st_frontier st
    /\ selected r.
Proof.
  intros [Hrows Htr]. unfold Invariants.tracked in Htr.
  destruct (st_frontier st) as [|r0 F] eqn:EF.
  - destruct (st_max_sharpe_portfolio st) as [p|].
    + destruct Htr as (i & w & Hi & _). done.
    + eexists. simpl. repeat split.
  - destruct (select_min (r0 :: F)) as (i & w & Hi & Hmin & Ei & ->); [done..|].
    destruct (st_max_sharpe_portfolio st) as [p|].
    + destruct Htr as (j & w' & Hj & Hw' & -> & _ & Hmax).
      eexists. simpl. repeat split; unfold Invariants.selected; simpl; eauto 10.
    + destruct (select_max (r0 :: F)) as (j & w' & Hj & Hmax & ->); [done..|].
      eexists. simpl. repeat split; unfold Invariants.selected; simpl; eauto 10.
Qed.

Lemma whole_returned (r : result) :
  whole = Returned r ->
  exists min_return max_return,
    Numpy.min mu = Returned min_return
    /\ Numpy.max mu = Returned max_return
    /\ efficient_frontier r
       = map row (omap kept (targets_of min_return max_return))
    /\ selected r.
Proof.
  unfold frontier_and_portfolios.
  destruct (Numpy.min mu) as [lo|] eqn:Elo; [|done].
  destruct (Numpy.max mu) as [hi|] eqn:Ehi; [|done].
  cbn [mbind outcome_bind]. fold Invariants.initial_state.
  destruct (run (targets_of lo hi) initial_state) as [st|] eqn:Erun; [|done].
  cbn [mbind outcome_bind].
  apply sweep_returned in Erun as [HF Hinv].
  cbn [st_frontier Invariants.initial_state app] in HF.
  specialize (Hinv initial_inv).
  destruct (after_sweep st Hinv) as (r' & Hr' & HF' & Hsel).
  cbn [mbind outcome_bind] in Hr'. rewrite Hr'.
  intros [= <-]. exists lo, hi. repeat split; [|done]. by rewrite HF'.
Qed.

Lemma min_max_returned :
  mu <> [] ->
  exists lo hi, Numpy.min mu = Returned lo /\ Numpy.max mu = Returned hi.
Proof.
  destruct mu as [|m0 mu']; [done|]. intros _. by do 2 eexists.
Qed.

(** The function returns when the solver raises nothing but
    [ValueError]. *)
Lemma whole_quiet :
  mu <> [] ->
  (forall lo hi, Numpy.min mu = Returned lo -> Numpy.max mu = Returned hi ->
                 Forall quiet (targets_of lo hi)) ->
  exists r, whole = Returned r.
Proof.
  intros Hmu Hq. unfold frontier_and_portfolios.
  destruct (min_max_returned Hmu) as (lo & hi & Elo & Ehi).
  rewrite Elo, Ehi. cbn [mbind outcome_bind]. fold Invariants.initial_state.
  destruct (sweep_quiet (targets_of lo hi) initial_state) as [st Hst].
  { by apply Hq. }
  rewrite Hst. cbn [mbind outcome_bind].
  apply sweep_returned in Hst as [_ Hinv].
  destruct (after_sweep st (Hinv initial_inv)) as (r & Hr & _).
  cbn [mbind outcome_bind] in Hr. rewrite Hr. by exists r.
Qed.


End Selection.

End Sweep.

End OptimizerFacts.

(** ** The sample covariance matrix is positive semi-definite *)

Module CovFacts.

Import Pandas NumFacts.

Abbreviation sum_over f l := (Qsum (map f l)).

Lemma sum_over_ext {A : Type} (f g : A -> Q) (l : list A) :
  (forall x, f x == g x) -> sum_over f l == sum_over g l.
Proof.
  intros H. induction l as [|x l IH]; unfold Qsum in *; cbn [map foldr]; [reflexivity|].
  by rewrite IH, H.
Qed.

Lemma sum_over_scale {A : Type} (k : Q) (f : A -> Q) (l : list A) :
  sum_over (fun x => k * f x) l == k * sum_over f l.
Proof.
  induction l as [|x l IH]; unfold Qsum in *; cbn [map foldr]; [ring|].
  rewrite IH. ring.
Qed.

Lemma sum_over_plus {A : Type} (f g : A -> Q) (l : list A) :
  sum_over (fun x => f x + g x) l == sum_over f l + sum_over g l.
Proof.
  induction l as [|x l IH]; unfold Qsum in *; cbn [map foldr]; [ring|].
  rewrite IH. ring.
Qed.

Lemma sum_over_zero {A : Type} (l : list A) :
  sum_over (fun _ => 0) l == 0.
Proof.
  induction l as [|x l IH]; unfold Qsum in *; cbn [map foldr]; [reflexivity|].
  rewrite IH. ring.
Qed.

Lemma sum_over_swap {A B : Type} (f : A -> B -> Q) (l1 : list A) (l2 : list B) :
  sum_over (fun x => sum_over (fun y => f x y) l2) l1
  == sum_over (fun y => sum_over (fun x => f x y) l1) l2.
Proof.
  induction l1 as [|x l1 IH]; cbn [map].
  - symmetry. apply sum_over_zero.
  - unfold Qsum at 1. cbn [foldr]. fold (Qsum (map (fun x => sum_over (fun y => f x y) l2) l1)).
    rewrite IH. symmetry. apply sum_over_plus.
Qed.

Lemma sum_over_nonneg {A : Type} (f : A -> Q) (l : list A) :
  (forall x, 0 <= f x) -> 0 <= sum_over f l.
Proof.
  intros H. induction l as [|x l IH]; unfold Qsum in *; cbn [map foldr]; [apply Qle_refl|].
  apply (Qle_trans _ (0 + 0)); [by rewrite Qplus_0_l; apply Qle_refl|].
  apply Qplus_le_compat; [apply H|apply IH].
Qed.

(** A weighted sum of products of deviations is a sum of squares. *)
Lemma gram_nonneg {A B : Type} (W : list A) (R : list B) (wt : A -> Q)
    (d : A -> B -> Q) (k : Q) :
  0 <= k ->
  0 <= sum_over
         (fun p => wt p * sum_over
            (fun q => (sum_over (fun r => d p r * d q r) R * k) * wt q) W) W.
Proof.
  intros Hk.
  set (T := fun r => sum_over (fun q => wt q * d q r) W).
  assert (forall p,
    wt p * sum_over (fun q => (sum_over (fun r => d p r * d q r) R * k) * wt q) W
    == k * sum_over (fun r => (wt p * d p r) * T r) R) as HA.
  { intros p. rewrite <- sum_over_scale.
    rewrite (sum_over_ext _
      (fun q => k * sum_over (fun r => (wt p * d p r) * (wt q * d q r)) R)).
    2:{ intros q. rewrite <- !sum_over_scale.
        setoid_replace (wt p * (sum_over (fun r => d p r * d q r) R * k * wt q))
          with ((wt p * k * wt q) * sum_over (fun r => d p r * d q r) R)
          using relation Qeq by ring.
        rewrite <- sum_over_scale. apply sum_over_ext. intros r. ring. }
    rewrite sum_over_scale. apply Qmult_comp; [reflexivity|].
    rewrite sum_over_swap. apply sum_over_ext. intros r.
    unfold T. by rewrite sum_over_scale. }
  rewrite (sum_over_ext _ _ W HA).
  rewrite sum_over_scale, sum_over_swap.
  apply Qmult_le_0_compat; [done|].
  apply sum_over_nonneg. intros r.
  rewrite (sum_over_ext _ (fun p => T r * (wt p * d p r))) by (intros p; ring).
  rewrite sum_over_scale. fold (T r).
  destruct (Qlt_le_dec (T r) 0) as [Hneg|Hpos].
  - setoid_replace (T r * T r) with ((- T r) * (- T r)) using relation Qeq by ring.
    apply Qmult_le_0_compat; apply (Qopp_le_compat (T r) 0); by apply Qlt_le_weak.
  - by apply Qmult_le_0_compat.
Qed.

Lemma Qdot_map_r {A : Type} (g : A -> Q) (w : list Q) (l : list A) :
  Qdot w (map g l) = sum_over (fun p => p.1 * g p.2) (zip w l).
Proof.
  revert l. induction w as [|x w IH]; intros [|a l]; try done.
  cbn [map zip zip_with Qdot]. unfold Qsum. cbn [map foldr fst snd].
  f_equal. apply IH.
Qed.

Lemma Qdot_map_l {A : Type} (f : A -> Q) (w : list Q) (l : list A) :
  Qdot (map f l) w = sum_over (fun p => f p.2 * p.1) (zip w l).
Proof.
  revert l. induction w as [|x w IH]; intros [|a l]; try done.
  cbn [map zip zip_with Qdot]. unfold Qsum. cbn [map foldr fst snd].
  f_equal. apply IH.
Qed.

Lemma zip_with_map_same {A B C D : Type} (f : B -> C -> D) (g : A -> B) (h : A -> C)
    (l : list A) :
  zip_with f (map g l) (map h l) = map (fun r => f (g r) (h r)) l.
Proof. induction l as [|x l IH]; simpl; [done|]. by rewrite IH. Qed.

Lemma Qnat_nonneg (n : nat) : 0 <= Qnat n.
Proof.
  unfold Qnat, Qle. simpl. lia.
Qed.

Theorem cov_psd (df : DataFrame) (w : list Q) :
  0 <= Qdot w (Qmatvec (cov df) w).
Proof.
  unfold Qmatvec, cov. rewrite map_map, Qdot_map_r.
  set (n := length (columns df)).
  set (W := zip w (seq 0 n)).
  set (m := fun i => mean_of (column df i)).
  set (k := / Qnat (length (rows df) - 1)).
  rewrite (sum_over_ext _
    (fun p => p.1 * sum_over
       (fun q => (sum_over (fun r => (nth p.2 r 0 - m p.2) * (nth q.2 r 0 - m q.2))
                    (rows df) * k) * q.1) W)).
  - apply gram_nonneg with (wt := fst) (d := fun p r => nth p.2 r 0 - m p.2).
    apply Qinv_le_0_compat, Qnat_nonneg.
  - intros p. rewrite Qdot_map_l. fold W.
    apply Qmult_comp; [reflexivity|]. apply sum_over_ext. intros q.
    apply Qmult_comp; [|reflexivity].
    unfold cov_of, column. rewrite zip_with_map_same, length_map. reflexivity.
Qed.

Lemma mean_length (df : DataFrame) : length (mean df) = length (columns df).
Proof. unfold mean. by rewrite length_map, length_seq. Qed.

Lemma mean_not_nil (df : DataFrame) : empty df = false -> mean df <> [].
Proof.
  unfold empty. intros H Hnil. apply orb_false_iff in H as [_ H].
  apply Nat.eqb_neq in H. apply H. rewrite <- mean_length. by rewrite Hnil.
Qed.

End CovFacts.

(** ** Properties of [linspace], [min] and [max] *)

Module NumpyFacts.

Import Pandas.

Lemma linspace_length (start stop : Q) (num : nat) :
  length (Numpy.linspace start stop num) = num.
Proof.
  unfold Numpy.linspace. destruct (1 <? num)%nat.
  - by rewrite length_insert, length_map, length_seq.
  - by rewrite length_map, length_seq.
Qed.

Lemma Qnat_pos_neq (n : nat) : (0 < n)%nat -> ~ Qnat n == 0.
Proof.
  intros Hn. unfold Qnat, Qeq. simpl. lia.
Qed.

Lemma Qnat_S (n : nat) : Qnat (S n) == Qnat n + 1.
Proof.
  unfold Qnat. rewrite Nat2Z.inj_succ, <- Z.add_1_r, inject_Z_plus. reflexivity.
Qed.

(** The samples are equally spaced and run from [start] to [stop]. *)
Lemma linspace_lookup (start stop : Q) (num i : nat) (t : Q) :
  (2 <= num)%nat ->
  Numpy.linspace start stop num !! i = Some t ->
  t == start + Qnat i * ((stop - start) / Qnat (num - 1)).
Proof.
  intros Hnum. unfold Numpy.linspace.
  destruct (Nat.ltb_spec 1 num) as [_|?]; [|lia].
  intros Hi. assert (i < num)%nat as Hlt.
  { apply lookup_lt_Some in Hi. by rewrite length_insert, length_map, length_seq in Hi. }
  destruct (decide (i = num - 1)%nat) as [->|Hne].
  - rewrite list_lookup_insert_eq in Hi by (rewrite length_map, length_seq; lia).
    injection Hi as <-. field. apply Qnat_pos_neq. lia.
  - rewrite list_lookup_insert_ne in Hi by done.
    rewrite list_lookup_fmap, lookup_seq_lt in Hi by done.
    injection Hi as <-. unfold Qnat. simpl. ring.
Qed.

Lemma foldl_Qmin_spec (xs : list Q) (x : Q) :
  (foldl Qmin x xs = x \/ foldl Qmin x xs ∈ xs)
  /\ foldl Qmin x xs <= x
  /\ forall y, y ∈ xs -> foldl Qmin x xs <= y.
Proof.
  revert x. induction xs as [|a xs IH]; intros x; simpl.
  - repeat split; [by left|apply Qle_refl|]. intros y Hy. by apply elem_of_nil in Hy.
  - destruct (IH (Qmin x a)) as (Hin & Hle & Hall). repeat split.
    + destruct Hin as [->|Hin]; [|by right; right].
      unfold Qmin, GenericMinMax.gmin. destruct (x ?= a); [by left..|right; by left].
    + eapply Qle_trans; [exact Hle|apply Q.le_min_l].
    + intros y [->|Hy]%elem_of_cons; [|by apply Hall].
      eapply Qle_trans; [exact Hle|apply Q.le_min_r].
Qed.

Lemma foldl_Qmax_spec (xs : list Q) (x : Q) :
  (foldl Qmax x xs = x \/ foldl Qmax x xs ∈ xs)
  /\ x <= foldl Qmax x xs
  /\ forall y, y ∈ xs -> y <= foldl Qmax x xs.
Proof.
  revert x. induction xs as [|a xs IH]; intros x; simpl.
  - repeat split; [by left|apply Qle_refl|]. intros y Hy. by apply elem_of_nil in Hy.
  - destruct (IH (Qmax x a)) as (Hin & Hle & Hall). repeat split.
    + destruct Hin as [->|Hin]; [|by right; right].
      unfold Qmax, GenericMinMax.gmax. destruct (x ?= a); [by left|right; by left|by left].
    + eapply Qle_trans; [apply Q.le_max_l|exact Hle].
    + intros y [->|Hy]%elem_of_cons; [|by apply Hall].
      eapply Qle_trans; [apply Q.le_max_r|exact Hle].
Qed.

Lemma min_spec (a : list Q) (lo : Q) :
  Numpy.min a = Returned lo -> lo ∈ a /\ forall y, y ∈ a -> lo <= y.
Proof.
  destruct a as [|x xs]; [done|]. intros [= <-].
  destruct (foldl_Qmin_spec xs x) as ([->|Hin] & Hle & Hall).
  - split; [by left|]. intros y [->|Hy]%elem_of_cons; [apply Qle_refl|].
    specialize (Hall y Hy). by destruct (foldl_Qmin_spec xs x) as ([->|?] & _).
  - split; [by right|]. intros y [->|Hy]%elem_of_cons; [done|by apply Hall].
Qed.

Lemma max_spec (a : list Q) (hi : Q) :
  Numpy.max a = Returned hi -> hi ∈ a /\ forall y, y ∈ a -> y <= hi.
Proof.
  destruct a as [|x xs]; [done|]. intros [= <-].
  destruct (foldl_Qmax_spec xs x) as (Hin & Hle & Hall).
  split.
  - destruct Hin as [->|Hin]; [by left|by right].
  - intros y [->|Hy]%elem_of_cons; [done|by apply Hall].
Qed.

End NumpyFacts.

(** ** The optimizer as a whole *)

Module OptimizerTheorems.

Import Pandas Optimizer NumFacts PandasFacts PyFacts Spec OptimizerFacts CovFacts NumpyFacts.

Section WithSolver.

Variable sqrtQ : Q -> Q.
Variable qp : qp_problem -> qp_outcome.

Abbreviation optimize := (optimize_portfolio sqrtQ qp).

Lemma enough_data_check (df : DataFrame) :
  enough_data df <-> (empty df || (len df <? 2)%nat) = false.
Proof.
  unfold enough_data. rewrite orb_false_iff, Nat.ltb_ge. tauto.
Qed.

(** With enough data the function is the sweep and the selection on the
    statistics of the table. *)
Lemma optimize_checked (df : DataFrame) (risk_free_rate : Q)
    (weight_bounds : weight_bounds_t) :
  enough_data df ->
  optimize df risk_free_rate weight_bounds
  = ((bound_vectors (length (mean df)) weight_bounds).1,
     r ← frontier_and_portfolios sqrtQ qp (columns df) (mean df) (cov df)
           risk_free_rate (G_of df) (h_of df weight_bounds);
     Returned (Some r)).
Proof.
  intros Hd. apply enough_data_check in Hd.
  unfold optimize_portfolio, G_of, h_of. rewrite Hd.
  by destruct (bound_vectors _ _) as [printed [mn mx]].
Qed.

Lemma optimize_unchecked (df : DataFrame) (risk_free_rate : Q)
    (weight_bounds : weight_bounds_t) :
  ~ enough_data df ->
  optimize df risk_free_rate weight_bounds = ([error_message], Returned None).
Proof.
  intros Hd. unfold optimize_portfolio.
  destruct (empty df || (len df <? 2)%nat) eqn:E; [done|].
  by apply enough_data_check in E.
Qed.

Lemma optimize_returned (df : DataFrame) (risk_free_rate : Q)
    (weight_bounds : weight_bounds_t) (printed : list string) (r : result) :
  optimize df risk_free_rate weight_bounds = (printed, Returned (Some r)) ->
  enough_data df
  /\ frontier_and_portfolios sqrtQ qp (columns df) (mean df) (cov df)
       risk_free_rate (G_of df) (h_of df weight_bounds) = Returned r.
Proof.
  intros H. destruct (empty df || (len df <? 2)%nat) eqn:E.
  - unfold optimize_portfolio in H. rewrite E in H. done.
  - apply enough_data_check in E. split; [done|].
    rewrite optimize_checked in H by done.
    destruct (frontier_and_portfolios _ _ _ _ _ _ _ _) as [r'|e]; [|done].
    by injection H as _ ->.
Qed.

Lemma kept_weights_Some (mu : list Q) (sigma G : list (list Q)) (h : list Q)
    (r_target : Q) (w : list Q) :
  kept_weights qp mu sigma G h r_target = Some w
  <-> qp (qp_for mu sigma G h r_target) = QpSol "optimal" w /\ length w = length mu.
Proof.
  unfold kept_weights. destruct (qp _) as [status x|e].
  - destruct (String.eqb_spec status "optimal") as [->|Hne]; simpl.
    + destruct (Nat.eqb_spec (length x) (length mu)) as [Hl|Hl].
      * split; [by intros [= ->]|]. by intros [[= ->] _].
      * split; [done|]. intros [[= ->] ?]. done.
    + split; [done|]. intros [[= -> ->] _]. done.
  - split; [done|]. by intros [? _].
Qed.

Lemma frontier_selected (df : DataFrame) (risk_free_rate : Q)
    (weight_bounds : weight_bounds_t) (printed : list string) (r : result) :
  optimize df risk_free_rate weight_bounds = (printed, Returned (Some r)) ->
  exists lo hi,
    Numpy.min (mean df) = Returned lo
    /\ Numpy.max (mean df) = Returned hi
    /\ efficient_frontier r
       = map (frontier_row_for sqrtQ df risk_free_rate)
             (omap (kept_for qp df weight_bounds)
                   (Numpy.linspace lo hi num_target_returns))
    /\ Invariants.selected sqrtQ (columns df) (mean df) (cov df) risk_free_rate r.
Proof.
  intros H. apply optimize_returned in H as [Hd H].
  apply whole_returned in H; [done|by rewrite mean_length|apply cov_psd].
Qed.

(** C1.  When the function returns a result with a non-empty frontier, the
    max-Sharpe portfolio it reports is the point of the frontier at the
    first position of the greatest Sharpe ratio: no point of the frontier
    has a greater ratio, and every earlier point has a strictly smaller
    one. *)
Theorem max_sharpe_is_first_greatest (df : DataFrame) (risk_free_rate : Q)
    (weight_bounds : weight_bounds_t) (printed : list string) (r : result) :
  optimize df risk_free_rate weight_bounds = (printed, Returned (Some r)) ->
  efficient_frontier r <> [] ->
  exists i row p,
    efficient_frontier r !! i = Some row
    /\ max_sharpe_portfolio r = Some p
    /\ same_point p row
    /\ first_max (map row_sharpe (efficient_frontier r)) i.
Proof.
  intros H Hne. apply frontier_selected in H as (lo & hi & _ & _ & _ & Hsel).
  unfold Invariants.selected in Hsel. destruct (efficient_frontier r) as [|r0 F]; [done|].
  destruct Hsel as [(i & w & Hi & Hp & Hmax) _].
  exists i, (row_of sqrtQ (columns df) (mean df) (cov df) risk_free_rate w),
    (portfolio_of sqrtQ (columns df) (mean df) (cov df) risk_free_rate w).
  repeat split; try done. intros asset. simpl. symmetry.
  apply dict_of_items_rename, _.
Qed.



Lemma min_max_defined (a : list Q) :
  a <> [] -> exists lo hi, Numpy.min a = Returned lo /\ Numpy.max a = Returned hi.
Proof. destruct a as [|x xs]; [done|]. intros _. by do 2 eexists. Qed.

Lemma optimize_quiet (df : DataFrame) (risk_free_rate : Q)
    (weight_bounds : weight_bounds_t) :
  enough_data df -> quiet_for qp df weight_bounds ->
  exists r, optimize df risk_free_rate weight_bounds
            = ((bound_vectors (length (mean df)) weight_bounds).1, Returned (Some r)).
Proof.
  intros Hd Hq. rewrite optimize_checked by done.
  destruct (whole_quiet sqrtQ qp (columns df) (mean df) (cov df) risk_free_rate
              (G_of df) (h_of df weight_bounds)) as [r Hr].
  - by rewrite mean_length.
  - apply cov_psd.
  - apply mean_not_nil, Hd.
  - intros lo hi _ _. apply Forall_forall. intros t _. apply Hq.
  - exists r. by rewrite Hr.
Qed.


(** C5.  On a table that is empty or has fewer than two rows the function
    prints the error line and returns [None]: no frontier and no
    portfolio. *)
Theorem too_few_rows_returns_none (df : DataFrame) (risk_free_rate : Q)
    (weight_bounds : weight_bounds_t) :
  empty df = true \/ (len df < 2)%nat ->
  optimize df risk_free_rate weight_bounds = ([error_message], Returned None).
Proof.
  intros H. apply optimize_unchecked. intros [He Hl].
  destruct H as [H|H]; [congruence|lia].
Qed.

Lemma bound_vectors_malformed (n : nat) (weight_bounds : weight_bounds_t) :
  malformed n weight_bounds ->
  bound_vectors n weight_bounds = ([warning_message], (Numpy.zeros n, Numpy.ones n)).
Proof.
  assert (bound_vectors n BoundsOther
          = ([warning_message], (Numpy.zeros n, Numpy.ones n))) as Hf.
  { unfold bound_vectors, Numpy.fill, Numpy.zeros, Numpy.ones.
    by rewrite !length_replicate. }
  destruct weight_bounds as [xs|xs|]; simpl; [| |done].
  - intros Hxs. destruct xs as [|a [|b [|c xs]]]; try done.
  - intros Hxs. unfold bound_vectors in *.
    destruct (Nat.eqb_spec (length xs) n); [done|]. exact Hf.
Qed.

Lemma bound_vectors_default (n : nat) :
  bound_vectors n (BoundsTuple [0; 1]) = ([], (Numpy.zeros n, Numpy.ones n)).
Proof.
  unfold bound_vectors, Numpy.fill, Numpy.zeros, Numpy.ones.
  by rewrite !length_replicate.
Qed.

(** C7.  A [weight_bounds] that is neither a tuple of two elements nor a
    list with one entry per asset does not change what the function
    returns or raises with respect to the bounds [(0, 1)]; with enough data
    the call prints the warning line, and the call with [(0, 1)] prints
    nothing. *)
Theorem malformed_bounds_fall_back (df : DataFrame) (risk_free_rate : Q)
    (weight_bounds : weight_bounds_t) :
  malformed (length (columns df)) weight_bounds ->
  (optimize df risk_free_rate weight_bounds).2
  = (optimize df risk_free_rate (BoundsTuple [0; 1])).2
  /\ (enough_data df ->
      (optimize df risk_free_rate weight_bounds).1 = [warning_message]
      /\ (optimize df risk_free_rate (BoundsTuple [0; 1])).1 = []).
Proof.
  intros Hm. rewrite <- mean_length in Hm.
  destruct (empty df || (len df <? 2)%nat) eqn:E.
  - split.
    + unfold optimize_portfolio. by rewrite E.
    + intros Hd. apply enough_data_check in Hd. congruence.
  - apply enough_data_check in E.
    rewrite !optimize_checked by done. unfold h_of.
    rewrite bound_vectors_malformed, bound_vectors_default by done.
    split; [done|]. by intros _.
Qed.



End WithSolver.

End OptimizerTheorems.

(** ** Properties of the sampling loop *)

Module GeneratorFacts.

Import Generator GeneratorSpec NumFacts CovFacts PyFacts.








(** *** Labels *)

Abbreviation chars := Stdlib.Strings.String.list_ascii_of_string.
Abbreviation of_chars := Stdlib.Strings.String.string_of_list_ascii.

Lemma list_ascii_of_app (a b : string) :
  chars (a +:+ b) = chars a ++ chars b.
Proof. induction a as [|c a IH]; simpl; [done|]. by rewrite IH. Qed.

#[export] Instance weight_label_inj : Inj (=) (=) weight_label.
Proof.
  intros a b H. unfold weight_label in H.
  apply (f_equal chars) in H. rewrite !list_ascii_of_app in H.
  apply app_inv_tail in H. apply (f_equal of_chars) in H.
  by rewrite !Stdlib.Strings.String.string_of_list_ascii_of_string in H.
Qed.

Lemma weight_label_not_fixed (asset : string) :
  weight_label asset <> "Returns" /\ weight_label asset <> "Volatility".
Proof.
  split; intros H; unfold weight_label in H;
    apply (f_equal chars) in H; rewrite list_ascii_of_app in H;
    apply (f_equal (@rev Ascii.ascii)) in H; rewrite rev_app_distr in H; simpl in H;
    discriminate.
Qed.

(** The default names of the assets of a plain array are distinct. *)
Lemma default_names_nodup (values : list Q) : NoDup (asset_names_of (Array values)).
Proof.
  simpl. apply NoDup_fmap_2; [|apply NoDup_seq].
  intros i j H. unfold default_name in H.
  apply (inj _) in H. apply (inj pretty) in H. lia.
Qed.

(** *** The dictionary of columns *)

Abbreviation put_column :=
  (fun (d : gmap string (list fnum)) (kv : string * list fnum) => <[kv.1 := kv.2]> d).

Lemma add_weight_columns_from (names : list string) (pre wpa : list (list fnum))
    (base : gmap string (list fnum)) :
  length wpa = length names ->
  add_weight_columns (pre ++ wpa) (imap (fun i => pair (length pre + i)%nat) names) base
  = Returned (foldl put_column base (zip (map weight_label names) wpa)).
Proof.
  revert pre wpa base. induction names as [|name names IH]; intros pre wpa base Hlen.
  - by destruct wpa.
  - destruct wpa as [|col wpa]; [done|]. rewrite imap_cons. simpl.
    rewrite Nat.add_0_r, lookup_app_r by lia. rewrite Nat.sub_diag. simpl.
    replace (pre ++ col :: wpa) with ((pre ++ [col]) ++ wpa) by by rewrite <- app_assoc.
    rewrite (imap_ext _ (fun i => pair (length (pre ++ [col]) + i)%nat)).
    + apply IH. simpl in Hlen. lia.
    + intros i x _. simpl. rewrite length_app. simpl. f_equal. lia.
Qed.

Lemma add_weight_columns_spec (names : list string) (wpa : list (list fnum))
    (base : gmap string (list fnum)) :
  length wpa = length names ->
  add_weight_columns wpa (imap pair names) base
  = Returned (foldl put_column base (zip (map weight_label names) wpa)).
Proof.
  intros Hlen. by apply (add_weight_columns_from names [] wpa base).
Qed.

Lemma foldl_put_nodup {V : Type} (items : list (string * V)) (acc : gmap string V)
    (k : string) (v : V) :
  NoDup (map fst items) -> (k, v) ∈ items ->
  foldl (fun d kv => <[kv.1 := kv.2]> d) acc items !! k = Some v.
Proof.
  revert acc. induction items as [|[k0 v0] items IH]; intros acc Hnd Hin; simpl in *.
  - by apply elem_of_nil in Hin.
  - apply NoDup_cons in Hnd as [Hk0 Hnd].
    apply elem_of_cons in Hin as [[= -> ->]|Hin].
    + rewrite foldl_put_absent by done. apply lookup_insert_eq.
    + by apply IH.
Qed.

Lemma select_columns_spec (m : gmap string (list fnum)) (order : list string) :
  (forall label, label ∈ order -> is_Some (m !! label)) ->
  select_columns m order
  = Returned (map (fun label => (label, default [] (m !! label))) order).
Proof.
  intros H. unfold select_columns.
  rewrite (for_each_ext _ (fun label => Returned (label, default [] (m !! label)))).
  - apply for_each_returned.
  - intros label Hl. destruct (H label Hl) as [col ->]. done.
Qed.

Lemma lookups_of_items {V : Type} (d : V) (items : list (string * V))
    (m : gmap string V) :
  (forall k v, (k, v) ∈ items -> m !! k = Some v) ->
  map (fun k => (k, default d (m !! k))) (map fst items) = items.
Proof.
  intros H. induction items as [|[k v] items IH]; simpl; [done|].
  rewrite (H k v) by by left. simpl. f_equal. apply IH.
  intros k' v' Hin. apply H. by right.
Qed.

Lemma map_snd_zip {A B : Type} (ks : list A) (vs : list B) :
  length ks = length vs -> map snd (zip ks vs) = vs.
Proof.
  revert vs. induction ks as [|k ks IH]; intros [|v vs] H; simpl in *; try done.
  f_equal. apply IH. lia.
Qed.

(** *** The table *)

Lemma assemble_spec (names : list string) (acc : samples) :
  NoDup names ->
  length (Numpy.transpose NaN (stock_weights acc)) = length names ->
  assemble names acc
  = Returned ([("Returns", port_returns acc); ("Volatility", port_volatility acc)]
              ++ zip (map weight_label names)
                     (Numpy.transpose NaN (stock_weights acc))).
Proof.
  intros Hnd Hlen. unfold assemble.
  set (wpa := Numpy.transpose NaN (stock_weights acc)) in *.
  set (base := <["Volatility" := port_volatility acc]>
                 (<["Returns" := port_returns acc]> ∅)).
  rewrite add_weight_columns_spec by done. cbn [mbind outcome_bind].
  set (items := zip (map weight_label names) wpa).
  set (m := foldl put_column base items).
  assert (map fst items = map weight_label names) as Hkeys.
  { unfold items. apply map_fst_zip. by rewrite length_map. }
  assert (m !! "Returns" = Some (port_returns acc)) as Hr.
  { unfold m. rewrite foldl_put_absent.
    - unfold base. by rewrite lookup_insert_ne, lookup_insert_eq.
    - rewrite Hkeys. intros (a & Ha & _)%list_elem_of_fmap.
      by destruct (weight_label_not_fixed a) as [? _]. }
  assert (m !! "Volatility" = Some (port_volatility acc)) as Hv.
  { unfold m. rewrite foldl_put_absent.
    - unfold base. by rewrite lookup_insert_eq.
    - rewrite Hkeys. intros (a & Ha & _)%list_elem_of_fmap.
      by destruct (weight_label_not_fixed a) as [_ ?]. }
  assert (forall k v, (k, v) ∈ items -> m !! k = Some v) as Hitems.
  { intros k v Hin. apply foldl_put_nodup; [|done].
    rewrite Hkeys. apply (NoDup_fmap_2 _), Hnd. }
  rewrite select_columns_spec.
  - cbn [app map]. rewrite Hr, Hv. simpl. do 3 f_equal.
    rewrite <- Hkeys. by apply lookups_of_items.
  - intros label [->|[->|Hl]%elem_of_cons]%elem_of_cons; [by eexists..|].
    rewrite <- Hkeys in Hl. apply list_elem_of_fmap in Hl as ([k v] & -> & Hin).
    simpl. rewrite (Hitems k v Hin). by eexists.
Qed.

Lemma nth_seq_self {A : Type} (d : A) (l : list A) :
  map (fun j => nth j l d) (seq 0 (length l)) = l.
Proof.
  induction l as [|x l IH]; simpl; [done|]. f_equal.
  rewrite <- seq_shift, map_map. exact IH.
Qed.

(** Row [t] of the transposed weights is the weight vector of sample [t]. *)
Lemma transpose_row (W : list (list fnum)) (k t : nat) (wt : list fnum) :
  Forall (fun w => length w = k) W -> W !! t = Some wt ->
  length (Numpy.transpose NaN W) = k
  /\ Forall (fun c => length c = length W) (Numpy.transpose NaN W)
  /\ map (fun c => nth t c NaN) (Numpy.transpose NaN W) = wt.
Proof.
  intros HW Ht. destruct W as [|w0 W]; [done|].
  assert (length w0 = k) as Hw0 by by apply Forall_cons in HW as [? _].
  assert (length wt = k) as Hwt.
  { rewrite Forall_forall in HW. apply HW. by eapply list_elem_of_lookup_2. }
  unfold Numpy.transpose. rewrite Hw0. split; [|split].
  - by rewrite length_map, length_seq.
  - apply Forall_fmap, Forall_forall. intros j _. simpl. by rewrite length_map.
  - rewrite map_map.
    transitivity (map (fun j => nth j wt NaN) (seq 0 k));
      [|rewrite <- Hwt; apply nth_seq_self].
    apply map_ext. intros j.
    rewrite (nth_lookup _ t), list_lookup_fmap, Ht. done.
Qed.

Section WithRandom.

Variable sqrtQ : Q -> Q.
Variable rng : Type.
Variable random : nat -> rng -> list Q * rng.

Abbreviation draws := (draws_of random).

(** The loop appends one entry per draw to each of its three lists. *)
Lemma sample_spec (n : nat) (expected_returns : list Q) (cov_matrix : list (list Q))
    (acc : samples) (s : rng) :
  sample sqrtQ rng random n expected_returns cov_matrix acc s
  = (let D := map normalize (draws n (length expected_returns) s) in
     {| port_returns := port_returns acc ++ map (returns_of expected_returns) D;
        port_volatility := port_volatility acc ++ map (volatility_of sqrtQ cov_matrix) D;
        stock_weights := stock_weights acc ++ D |},
     state_after random n (length expected_returns) s).
Proof.
  revert acc s. induction n as [|n IH]; intros acc s; simpl.
  - rewrite !app_nil_r. by destruct acc.
  - destruct (random (length expected_returns) s) as [d s'] eqn:E. simpl.
    rewrite IH. simpl. by rewrite <- !app_assoc.
Qed.

End WithRandom.

End GeneratorFacts.

(** ** The generator as a whole *)

Module GeneratorTheorems.

Import Generator GeneratorSpec GeneratorFacts NumFacts CovFacts PyFacts.

Section WithRandom.

Variable sqrtQ : Q -> Q.
Variable rng : Type.
Variable random : nat -> rng -> list Q * rng.

Abbreviation generate := (return_portfolios sqrtQ rng random).

Lemma draws_length (n k : nat) (s : rng) : length (draws_of random n k s) = n.
Proof.
  revert s. induction n as [|n IH]; intros s; simpl; [done|]. by rewrite IH.
Qed.

Lemma asset_names_length (expected_returns : expected_returns_t) :
  length (asset_names_of expected_returns) = length (values_of expected_returns).
Proof.
  destruct expected_returns as [items|values]; simpl.
  - by rewrite !length_map.
  - by rewrite length_map, length_seq.
Qed.

(** With matching dimensions the function is the sampling loop followed by
    the assembly of the table. *)
Lemma generate_matching (expected_returns : expected_returns_t)
    (cov_matrix : list (list Q)) (n : nat) (s : rng) :
  matching_dimensions expected_returns cov_matrix ->
  generate expected_returns cov_matrix n s
  = (let er := values_of expected_returns in
     let W := map normalize (draws_of random n (length er) s) in
     ([],
      df ← assemble (asset_names_of expected_returns)
             {| port_returns := map (returns_of er) W;
                port_volatility := map (volatility_of sqrtQ cov_matrix) W;
                stock_weights := W |};
      Returned (Some df),
      state_after random n (length er) s)).
Proof.
  intros Hdim. unfold return_portfolios.
  rewrite bool_decide_eq_true_2 by exact Hdim. cbn [negb].
  by rewrite sample_spec.
Qed.

(** Without them the lookup of the name [sys] fails. *)
Lemma generate_mismatch (expected_returns : expected_returns_t)
    (cov_matrix : list (list Q)) (n : nat) (s : rng) :
  ~ matching_dimensions expected_returns cov_matrix ->
  generate expected_returns cov_matrix n s = ([], Raised NameError, s).
Proof.
  intros Hdim. unfold return_portfolios.
  by rewrite bool_decide_eq_false_2 by exact Hdim.
Qed.



End WithRandom.

End GeneratorTheorems.

(** ** The functions on concrete inputs *)

Module Runs.

Import Pandas Optimizer Generator Spec GeneratorSpec Concrete NumFacts CovFacts.
Import OptimizerTheorems GeneratorFacts GeneratorTheorems.

Abbreviation optimize_demo := (optimize_portfolio sqrt_floor qp_two_assets).

(** The solver for two assets raises nothing but [ValueError] on the
    programs of a table with two columns. *)
Lemma qp_two_assets_quiet (df : DataFrame) (weight_bounds : weight_bounds_t) :
  length (columns df) = 2%nat -> quiet_for qp_two_assets df weight_bounds.
Proof.
  intros Hcols t e. unfold qp_two_assets, qp_for, num_assets.
  cbn [qp_A qp_b]. rewrite mean_length, Hcols.
  assert (exists m1 m2, mean df = [m1; m2]) as (m1 & m2 & ->).
  { unfold mean. rewrite Hcols. by do 2 eexists. }
  cbn [Numpy.ones replicate]. destruct (Qeq_bool _ 0); [by intros [= <-]|].
  by destruct (forallb _ _).
Qed.

Lemma optimize_demo_returns (df : DataFrame) :
  enough_data df -> length (columns df) = 2%nat ->
  optimize_demo df 0 (BoundsTuple [0; 1]) = ([], Returned (Some (result_on df))).
Proof.
  intros Hd Hcols.
  destruct (optimize_quiet sqrt_floor qp_two_assets df 0 (BoundsTuple [0; 1]))
    as [r Hr]; [done|by apply qp_two_assets_quiet|].
  unfold result_on. rewrite Hr. cbn [snd]. by rewrite bound_vectors_default.
Qed.

Lemma demo_enough_data : enough_data demo_returns.
Proof. split; [reflexivity|]. vm_compute. lia. Qed.

Lemma riskless_enough_data : enough_data riskless_returns.
Proof. split; [reflexivity|]. vm_compute. lia. Qed.

Lemma demo_run :
  optimize_demo demo_returns 0 (BoundsTuple [0; 1])
  = ([], Returned (Some (result_on demo_returns))).
Proof. apply optimize_demo_returns; [apply demo_enough_data|reflexivity]. Qed.

Lemma riskless_run :
  optimize_demo riskless_returns 0 (BoundsTuple [0; 1])
  = ([], Returned (Some (result_on riskless_returns))).
Proof. apply optimize_demo_returns; [apply riskless_enough_data|reflexivity]. Qed.

Lemma demo_frontier_not_empty : efficient_frontier (result_on demo_returns) <> [].
Proof. intros H. apply (f_equal length) in H. vm_compute in H. discriminate. Qed.

Lemma riskless_frontier_not_empty : efficient_frontier (result_on riskless_returns) <> [].
Proof. intros H. apply (f_equal length) in H. vm_compute in H. discriminate. Qed.


(** On the table of the scenario with equal mean returns the equality
    constraints are singular for every target: the frontier is empty and no
    portfolio is reported. *)
Example equal_means_empty_frontier :
  optimize_demo equal_means_returns 0 (BoundsTuple [0; 1]) = ([], Returned (Some no_result)).
Proof. vm_compute. reflexivity. Qed.

(** When every point of a non-empty frontier has the Sharpe ratio [-inf],
    the first position of the greatest ratio is the first row. *)
Lemma first_max_all_ninf (F : list frontier_row) (i : nat) :
  Forall (fun row => row_sharpe row = NInf) F ->
  first_max (map row_sharpe F) i -> i = 0%nat.
Proof.
  intros Hall (v & Hv & _ & Hlt). destruct i as [|i]; [done|].
  destruct F as [|r0 F]; [done|].
  apply Forall_cons in Hall as [Hr0 HF].
  specialize (Hlt 0%nat (row_sharpe r0) ltac:(lia) eq_refl).
  rewrite Hr0 in Hlt. unfold flt in Hlt.
  rewrite list_lookup_fmap in Hv. cbn [lookup list_lookup] in Hv.
  destruct (F !! i) as [ri|] eqn:Eri; [|done]. injection Hv as <-.
  rewrite Forall_forall in HF. rewrite (HF ri) in Hlt; [done|].
  by eapply list_elem_of_lookup_2.
Qed.

Lemma max_sharpe_of_riskless (r : result) (printed : list string) (df : DataFrame)
    (weight_bounds : weight_bounds_t) :
  optimize_demo df 0 weight_bounds = (printed, Returned (Some r)) ->
  efficient_frontier r <> [] ->
  Forall (fun row => row_sharpe row = NInf) (efficient_frontier r) ->
  exists p, max_sharpe_portfolio r = Some p /\ same_point p (first_row r).
Proof.
  intros Hrun Hne Hall.
  apply frontier_selected in Hrun as (lo & hi & _ & _ & _ & Hsel).
  unfold Invariants.selected, first_row in *.
  destruct (efficient_frontier r) as [|r0 F]; [done|].
  destruct Hsel as [(i & w & Hi & Hp & Hmax) _].
  apply first_max_all_ninf in Hmax as ->; [|done].
  injection Hi as ->. eexists. split; [exact Hp|].
  apply OptimizerFacts.same_point_of.
Qed.

Lemma riskless_all_ninf :
  Forall (fun row => row_sharpe row = NInf)
         (efficient_frontier (result_on riskless_returns)).
Proof.
  assert (forallb (fun u => match u with NInf => true | _ => false end)
            (map row_sharpe (efficient_frontier (result_on riskless_returns))) = true)
    as Hb by (vm_compute; reflexivity).
  generalize dependent (efficient_frontier (result_on riskless_returns)).
  intros F Hb. rewrite forallb_forall in Hb. apply Forall_forall. intros row Hrow.
  assert (In (row_sharpe row) (map row_sharpe F)) as Hin.
  { apply list_elem_of_In. by apply list_elem_of_fmap_2. }
  apply Hb in Hin. by destruct (row_sharpe row).
Qed.

(** On the riskless table every point has the Sharpe ratio [-inf]: the
    running maximum finds nothing, and the scan after the sweep reports the
    first point. *)
Example riskless_max_sharpe_is_first_row :
  Forall (fun row => row_sharpe row = NInf)
         (efficient_frontier (result_on riskless_returns))
  /\ exists p, max_sharpe_portfolio (result_on riskless_returns) = Some p
       /\ same_point p (first_row (result_on riskless_returns)).
Proof.
  split; [apply riskless_all_ninf|].
  exact (max_sharpe_of_riskless _ _ _ _ riskless_run riskless_frontier_not_empty
           riskless_all_ninf).
Qed.

(** *** The theorems on concrete inputs *)

Lemma max_sharpe_witness :
  optimize_demo demo_returns 0 (BoundsTuple [0; 1])
  = ([], Returned (Some (result_on demo_returns)))
  /\ efficient_frontier (result_on demo_returns) <> []
  /\ exists i row p,
       efficient_frontier (result_on demo_returns) !! i = Some row
       /\ max_sharpe_portfolio (result_on demo_returns) = Some p
       /\ same_point p row
       /\ first_max (map row_sharpe (efficient_frontier (result_on demo_returns))) i.
Proof.
  split; [exact demo_run|]. split; [exact demo_frontier_not_empty|].
  exact (max_sharpe_is_first_greatest sqrt_floor qp_two_assets demo_returns 0
           (BoundsTuple [0; 1]) [] (result_on demo_returns)
           demo_run demo_frontier_not_empty).
Defined.



Lemma too_few_rows_witness :
  (empty single_row_returns = true \/ (len single_row_returns < 2)%nat)
  /\ optimize_demo single_row_returns 0 (BoundsTuple [0; 1])
     = ([error_message], Returned None).
Proof.
  assert (empty single_row_returns = true \/ (len single_row_returns < 2)%nat) as H.
  { right. vm_compute. lia. }
  split; [exact H|].
  exact (too_few_rows_returns_none sqrt_floor qp_two_assets single_row_returns 0
           (BoundsTuple [0; 1]) H).
Defined.

Lemma malformed_bounds_witness :
  malformed (length (columns demo_returns)) (BoundsTuple [0; 1; 2])
  /\ (optimize_demo demo_returns 0 (BoundsTuple [0; 1; 2])).2
     = (optimize_demo demo_returns 0 (BoundsTuple [0; 1])).2
  /\ (enough_data demo_returns ->
      (optimize_demo demo_returns 0 (BoundsTuple [0; 1; 2])).1 = [warning_message]
      /\ (optimize_demo demo_returns 0 (BoundsTuple [0; 1])).1 = []).
Proof.
  assert (malformed (length (columns demo_returns)) (BoundsTuple [0; 1; 2])) as H.
  { vm_compute. lia. }
  split; [exact H|].
  exact (malformed_bounds_fall_back sqrt_floor qp_two_assets demo_returns 0
           (BoundsTuple [0; 1; 2]) H).
Defined.







(** With no portfolio to draw the array of weights has no row to index:
    the function raises [IndexError]. *)
Example zero_portfolios_raise :
  generate_from demo_expected demo_cov 0 [] = ([], Raised IndexError, []).
Proof. vm_compute. reflexivity. Qed.

(** With two assets under one label the second column overwrites the
    first in the dictionary, and the table shows it twice. *)
Example repeated_label_repeats_column :
  generate_from (Series [("A", 1 # 10); ("A", 2 # 10)]) demo_cov 1 [[1 # 4; 3 # 4]]
  = ([], Returned (Some [("Returns", [Fin (71680 # 409600)]);
                         ("Volatility", [Fin (149053 # 625000)]);
                         ("AWeight", [Fin (48 # 64)]); ("AWeight", [Fin (48 # 64)])]), []).
Proof. vm_compute. reflexivity. Qed.

(** C6.  On a covariance matrix of shape [(1, 1)] for two expected returns
    the function raises [NameError]: the branch that reports the mismatch
    looks up [sys], which the module never imports, before it prints the
    error line or returns [None]. *)
Theorem mismatch_raises_name_error :
  ~ matching_dimensions demo_expected [[1]]
  /\ generate_from demo_expected [[1]] 1 demo_draws = ([], Raised NameError, demo_draws).
Proof.
  assert (~ matching_dimensions demo_expected [[1]]) as H by (by vm_compute).
  split; [exact H|].
  exact (generate_mismatch sqrt_floor (list (list Q)) random_from_list
           demo_expected [[1]] 1 demo_draws H).
Qed.

End Runs.

(** ** Further properties of the optimizer *)

Module OptimizerExtras.

Import Pandas Optimizer NumFacts PandasFacts PyFacts Spec ProgramSpec.
Import OptimizerFacts CovFacts NumpyFacts OptimizerTheorems.

(** *** The bound vectors *)

Abbreviation set_bounds :=
  (fun (mm : list Q * list Q) (ib : nat * (Q * Q)) =>
     (<[ib.1 := ib.2.1]> mm.1, <[ib.1 := ib.2.2]> mm.2)).

Lemma set_bounds_from (l : list (Q * Q)) (done_min done_max rest_min rest_max : list Q) :
  length done_min = length done_max ->
  length rest_min = length l -> length rest_max = length l ->
  foldl set_bounds (done_min ++ rest_min, done_max ++ rest_max)
        (imap (fun i => pair (length done_min + i)%nat) l)
  = (done_min ++ map fst l, done_max ++ map snd l).
Proof.
  revert done_min done_max rest_min rest_max.
  induction l as [|[lo hi] l IH]; intros dmin dmax rmin rmax Hd Hmin Hmax.
  - destruct rmin, rmax; done.
  - destruct rmin as [|x rmin]; [done|]. destruct rmax as [|y rmax]; [done|].
    rewrite imap_cons. cbn [foldl fst snd map].
    rewrite (insert_app_r dmin), Hd, (insert_app_r dmax).
    cbn [insert list_insert].
    rewrite (imap_ext _ (fun i => pair (length (dmin ++ [lo]) + i)%nat)).
    2:{ intros i p _. simpl. rewrite length_app. simpl. f_equal. lia. }
    replace (dmin ++ lo :: rmin) with ((dmin ++ [lo]) ++ rmin) by by rewrite <- app_assoc.
    replace (dmax ++ hi :: rmax) with ((dmax ++ [hi]) ++ rmax) by by rewrite <- app_assoc.
    rewrite IH.
    + by rewrite <- !app_assoc.
    + rewrite !length_app. simpl. lia.
    + simpl in Hmin. lia.
    + simpl in Hmax. lia.
Qed.

Lemma bound_vectors_of_list (n : nat) (l : list (Q * Q)) :
  length l = n ->
  bound_vectors n (BoundsList l) = ([], (map fst l, map snd l)).
Proof.
  intros Hl. unfold bound_vectors. rewrite <- Hl, Nat.eqb_refl.
  f_equal. apply (set_bounds_from l [] []); [done|..];
    unfold Numpy.zeros, Numpy.ones; by rewrite length_replicate.
Qed.

(** X1.  With a list of one [(min_w, max_w)] pair per asset nothing is
    printed, there is one lower and one upper bound per asset, and the
    bounds of asset [i] are the pair at position [i]. *)
Theorem per_asset_bounds (n : nat) (l : list (Q * Q)) :
  length l = n ->
  exists min_weights max_weights,
    bound_vectors n (BoundsList l) = ([], (min_weights, max_weights))
    /\ length min_weights = n /\ length max_weights = n
    /\ forall i min_w max_w,
         l !! i = Some (min_w, max_w) ->
         min_weights !! i = Some min_w /\ max_weights !! i = Some max_w.
Proof.
  intros Hl. exists (map fst l), (map snd l).
  split; [by apply bound_vectors_of_list|].
  rewrite !length_map. split; [done|]. split; [done|].
  intros i min_w max_w Hi. rewrite !list_lookup_fmap, Hi. done.
Qed.

Lemma optimize_bounds_ext (sqrtQ : Q -> Q) (qp : qp_problem -> qp_outcome)
    (df : DataFrame) (risk_free_rate : Q) (b1 b2 : weight_bounds_t) :
  bound_vectors (length (mean df)) b1 = bound_vectors (length (mean df)) b2 ->
  optimize_portfolio sqrtQ qp df risk_free_rate b1
  = optimize_portfolio sqrtQ qp df risk_free_rate b2.
Proof.
  intros H. unfold optimize_portfolio. by rewrite H.
Qed.

(** X2.  A uniform pair [(min_w, max_w)] and the list that repeats this
    pair once per asset give the same call: the same printed lines and the
    same result or exception. *)
Theorem uniform_bounds_as_list (sqrtQ : Q -> Q) (qp : qp_problem -> qp_outcome)
    (df : DataFrame) (risk_free_rate min_w max_w : Q) :
  optimize_portfolio sqrtQ qp df risk_free_rate (BoundsTuple [min_w; max_w])
  = optimize_portfolio sqrtQ qp df risk_free_rate
      (BoundsList (replicate (length (columns df)) (min_w, max_w))).
Proof.
  apply optimize_bounds_ext. rewrite mean_length.
  rewrite bound_vectors_of_list by apply length_replicate.
  unfold bound_vectors, Numpy.fill, Numpy.zeros, Numpy.ones.
  by rewrite !length_replicate, !fmap_replicate.
Qed.

(** *** The program of a target return *)

Lemma bound_vectors_lengths (n : nat) (weight_bounds : weight_bounds_t) :
  length (bound_vectors n weight_bounds).2.1 = n
  /\ length (bound_vectors n weight_bounds).2.2 = n.
Proof.
  assert (forall (v1 v2 : Q),
            length (Numpy.fill (Numpy.zeros n) v1) = n
            /\ length (Numpy.fill (Numpy.ones n) v2) = n) as Hfill.
  { intros v1 v2. unfold Numpy.fill, Numpy.zeros, Numpy.ones.
    by rewrite !length_replicate. }
  destruct weight_bounds as [xs|l|]; [| |apply Hfill].
  - destruct xs as [|a [|b [|c xs]]]; apply Hfill.
  - destruct (decide (length l = n)) as [Hl|Hl].
    + rewrite bound_vectors_of_list by done. simpl. by rewrite !length_map.
    + unfold bound_vectors. apply Nat.eqb_neq in Hl. rewrite Hl. apply Hfill.
Qed.

Lemma Qdot_unit_row (w : list Q) (s i : nat) :
  Qdot (map (fun j => if (i =? j)%nat then 1 else 0) (seq s (length w))) w
  == if decide (s <= i < s + length w)%nat then nth (i - s) w 0 else 0.
Proof.
  revert s. induction w as [|x w IH]; intros s.
  - simpl. destruct (decide _); [lia|reflexivity].
  - cbn [length seq map Qdot]. rewrite IH.
    destruct (Nat.eqb_spec i s) as [->|Hne].
    + rewrite decide_False by lia. rewrite decide_True by lia.
      rewrite Nat.sub_diag. simpl. ring.
    + destruct (decide (S s <= i < S s + length w)%nat) as [Hin|Hout].
      * rewrite decide_True by lia.
        replace (i - s)%nat with (S (i - S s)) by lia. simpl. ring.
      * rewrite decide_False by lia. ring.
Qed.

Lemma Qdot_opp_l (xs ys : list Q) : Qdot (map Qopp xs) ys == - Qdot xs ys.
Proof.
  revert ys. induction xs as [|x xs IH]; intros [|y ys]; cbn [map Qdot]; try ring.
  rewrite IH. ring.
Qed.

Lemma Qdot_comm (xs ys : list Q) : Qdot xs ys == Qdot ys xs.
Proof.
  revert ys. induction xs as [|x xs IH]; intros [|y ys]; cbn [Qdot]; try reflexivity.
  rewrite IH. ring.
Qed.

Lemma Qdot_ones (w : list Q) : Qdot (Numpy.ones (length w)) w == Qsum w.
Proof.
  unfold Numpy.ones, Qsum. induction w as [|x w IH]; cbn [length replicate Qdot foldr].
  - reflexivity.
  - rewrite IH. ring.
Qed.

Lemma Qdot_zeros (n : nat) (w : list Q) : Qdot (Numpy.zeros n) w == 0.
Proof.
  unfold Numpy.zeros. revert w. induction n as [|n IH]; intros [|x w];
    cbn [replicate Qdot]; try reflexivity.
  rewrite IH. ring.
Qed.

(** Row [i] of [np.eye(n)] picks entry [i] of a vector of length [n]. *)
Lemma eye_lookup (w : list Q) (i : nat) (a : Q) :
  Qmatvec (Numpy.eye (length w)) w !! i = Some a ->
  exists x, w !! i = Some x /\ a == x.
Proof.
  unfold Qmatvec, Numpy.eye. rewrite map_map, list_lookup_fmap.
  intros Hi. destruct (seq 0 (length w) !! i) as [j|] eqn:Ej; [|done].
  apply lookup_seq in Ej as [-> Hlt]. simpl in Hi. injection Hi as <-.
  destruct (lookup_lt_is_Some_2 w i Hlt) as [x Hx]. exists x. split; [done|].
  rewrite Qdot_unit_row. rewrite decide_True by lia.
  rewrite Nat.sub_0_r, nth_lookup, Hx. reflexivity.
Qed.

Lemma neg_eye_lookup (w : list Q) (i : nat) (a : Q) :
  Qmatvec (Numpy.neg_matrix (Numpy.eye (length w))) w !! i = Some a ->
  exists x, w !! i = Some x /\ a == - x.
Proof.
  unfold Qmatvec, Numpy.neg_matrix. rewrite map_map, list_lookup_fmap.
  intros Hi.
  destruct (Numpy.eye (length w) !! i) as [row|] eqn:Er; [|done].
  simpl in Hi. injection Hi as <-.
  destruct (eye_lookup w i (Qdot row w)) as (x & Hx & Hq).
  { unfold Qmatvec. by rewrite list_lookup_fmap, Er. }
  exists x. split; [done|]. by rewrite Qdot_opp_l, Hq.
Qed.

Lemma eye_length (n : nat) : length (Numpy.eye n) = n.
Proof. unfold Numpy.eye. by rewrite length_map, length_seq. Qed.

(** X3.  The inequality constraints of every program of the sweep are the
    bounds: a vector with one weight per asset meets [G x <= h] exactly
    when every weight lies between the lower and the upper bound of its
    asset. *)
Theorem inequalities_are_bounds (df : DataFrame) (weight_bounds : weight_bounds_t)
    (r_target : Q) (w : list Q) :
  length w = length (columns df) ->
  meets_inequalities (program_for df weight_bounds r_target) w
  <-> within_bounds (bound_vectors (length (mean df)) weight_bounds).2.1
                    (bound_vectors (length (mean df)) weight_bounds).2.2 w.
Proof.
  intros Hw. unfold meets_inequalities, within_bounds, program_for, qp_for, h_of, G_of.
  cbn [qp_G qp_h].
  destruct (bound_vectors_lengths (length (mean df)) weight_bounds) as [Hmin Hmax].
  set (mins := (bound_vectors (length (mean df)) weight_bounds).2.1) in *.
  set (maxs := (bound_vectors (length (mean df)) weight_bounds).2.2) in *.
  rewrite mean_length, <- Hw in *.
  unfold Qmatvec at 1. rewrite map_app. fold (Qmatvec (Numpy.neg_matrix (Numpy.eye (length w))) w).
  fold (Qmatvec (Numpy.eye (length w)) w).
  assert (length (Qmatvec (Numpy.neg_matrix (Numpy.eye (length w))) w) = length w) as Hl1.
  { unfold Qmatvec, Numpy.neg_matrix. by rewrite !length_map, eye_length. }
  assert (length (Qmatvec (Numpy.eye (length w)) w) = length w) as Hl2.
  { unfold Qmatvec. by rewrite !length_map, eye_length. }
  assert (Forall2 Qle (Qmatvec (Numpy.neg_matrix (Numpy.eye (length w))) w)
                      (map Qopp mins)
          <-> Forall2 Qle mins w) as Hlow.
  { rewrite !Forall2_same_length_lookup, length_map. split.
    - intros [_ H]. split; [done|]. intros i m x Hm Hx.
      destruct (lookup_lt_is_Some_2 (Qmatvec (Numpy.neg_matrix (Numpy.eye (length w))) w) i)
        as [a Ha]; [rewrite Hl1; by eapply lookup_lt_Some|].
      destruct (neg_eye_lookup w i a Ha) as (x' & Hx' & Hq).
      assert (x' = x) as -> by congruence.
      specialize (H i a (- m) Ha). rewrite list_lookup_fmap, Hm in H.
      specialize (H eq_refl). rewrite Hq in H. by apply Qopp_le_compat in H;
        rewrite !Qopp_involutive in H.
    - intros [_ H]. split; [lia|]. intros i a m' Ha Hm'.
      rewrite list_lookup_fmap in Hm'.
      destruct (mins !! i) as [m|] eqn:Hm; [|done]. injection Hm' as <-.
      destruct (neg_eye_lookup w i a Ha) as (x & Hx & Hq).
      rewrite Hq. apply Qopp_le_compat. by eapply H. }
  assert (Forall2 Qle (Qmatvec (Numpy.eye (length w)) w) maxs
          <-> Forall2 Qle w maxs) as Hhigh.
  { rewrite !Forall2_same_length_lookup. split.
    - intros [_ H]. split; [done|]. intros i x m Hx Hm.
      destruct (lookup_lt_is_Some_2 (Qmatvec (Numpy.eye (length w)) w) i)
        as [a Ha]; [rewrite Hl2; by eapply lookup_lt_Some|].
      destruct (eye_lookup w i a Ha) as (x' & Hx' & Hq).
      assert (x' = x) as -> by congruence.
      rewrite <- Hq. by eapply H.
    - intros [_ H]. split; [lia|]. intros i a m Ha Hm.
      destruct (eye_lookup w i a Ha) as (x & Hx & Hq).
      rewrite Hq. by eapply H. }
  rewrite <- Hlow, <- Hhigh. split.
  - intros H. apply Forall2_app_inv in H; [done|]. by rewrite length_map, Hl1.
  - intros [H1 H2]. by apply Forall2_app.
Qed.

(** X4.  The equality constraints of the program of a target return say
    that the weights sum to one and that the portfolio return is the
    target; its objective is the variance alone: the matrix is the
    covariance matrix and the linear term vanishes. *)
Theorem equalities_are_budget_and_target (df : DataFrame)
    (weight_bounds : weight_bounds_t) (r_target : Q) (w : list Q) :
  length w = length (columns df) ->
  (meets_equalities (program_for df weight_bounds r_target) w
   <-> Qsum w == 1 /\ portfolio_return (mean df) w == r_target)
  /\ qp_P (program_for df weight_bounds r_target) = cov df
  /\ Qdot (qp_q (program_for df weight_bounds r_target)) w == 0.
Proof.
  intros Hw. unfold meets_equalities, program_for, qp_for, portfolio_return, num_assets.
  cbn [qp_A qp_b qp_P qp_q Qmatvec map].
  rewrite mean_length, <- Hw. split; [|split; [done|apply Qdot_zeros]].
  rewrite <- Qdot_ones, (Qdot_comm w). split.
  - intros H. apply Forall2_cons in H as [H1 H]. apply Forall2_cons in H as [H2 _]. done.
  - intros [H1 H2]. by repeat constructor.
Qed.



(** *** The targets *)

Lemma Qnat_le (i j : nat) : (i <= j)%nat -> Qnat i <= Qnat j.
Proof. intros H. unfold Qnat, Qle. simpl. lia. Qed.

(** X6.  With enough data the target returns never leave the range of the
    mean returns of the assets, and they are swept in ascending order. *)
Theorem targets_ascend_within_means (df : DataFrame) :
  enough_data df ->
  exists lo hi,
    Numpy.min (mean df) = Returned lo /\ Numpy.max (mean df) = Returned hi
    /\ lo <= hi
    /\ (forall i t, Numpy.linspace lo hi num_target_returns !! i = Some t ->
                    lo <= t /\ t <= hi)
    /\ (forall i j ti tj, (i <= j)%nat ->
          Numpy.linspace lo hi num_target_returns !! i = Some ti ->
          Numpy.linspace lo hi num_target_returns !! j = Some tj ->
          ti <= tj).
Proof.
  intros Hd. destruct (min_max_defined (mean df)) as (lo & hi & Elo & Ehi).
  { apply mean_not_nil, Hd. }
  exists lo, hi. split; [done|]. split; [done|].
  assert (lo <= hi) as Hle.
  { destruct (min_spec _ _ Elo) as [_ Hlo]. destruct (max_spec _ _ Ehi) as [Hhi _].
    by apply Hlo. }
  split; [done|].
  set (d := (hi - lo) / Qnat (num_target_returns - 1)).
  assert (0 <= d) as Hd0.
  { unfold d. apply Qle_shift_div_l; [reflexivity|].
    rewrite Qmult_0_l. by apply -> Qle_minus_iff. }
  assert (forall i t, Numpy.linspace lo hi num_target_returns !! i = Some t ->
                      (i < num_target_returns)%nat /\ t == lo + Qnat i * d) as Hform.
  { intros i t Hi. split.
    - apply lookup_lt_Some in Hi. by rewrite linspace_length in Hi.
    - apply linspace_lookup in Hi; [done|unfold num_target_returns; lia]. }
  split.
  - intros i t Hi. destruct (Hform i t Hi) as [Hlt ->]. split.
    + apply (Qle_trans _ (lo + 0)); [rewrite Qplus_0_r; apply Qle_refl|].
      apply Qplus_le_compat; [apply Qle_refl|].
      apply Qmult_le_0_compat; [apply Qnat_nonneg|done].
    + apply (Qle_trans _ (lo + Qnat (num_target_returns - 1) * d)).
      * apply Qplus_le_compat; [apply Qle_refl|].
        apply Qmult_le_compat_r; [|done]. apply Qnat_le. lia.
      * unfold d. apply Qle_lteq. right. field. by vm_compute.
  - intros i j ti tj Hij Hi Hj.
    destruct (Hform i ti Hi) as [_ ->]. destruct (Hform j tj Hj) as [_ ->].
    apply Qplus_le_compat; [apply Qle_refl|].
    apply Qmult_le_compat_r; [by apply Qnat_le|done].
Qed.

Section WithSolver.

Variable sqrtQ : Q -> Q.
Variable qp : qp_problem -> qp_outcome.

Abbreviation optimize := (optimize_portfolio sqrtQ qp).

(** *** Exceptions *)


(** *** The two portfolios *)

Lemma frontier_row_kept (df : DataFrame) (risk_free_rate : Q)
    (weight_bounds : weight_bounds_t) (printed : list string) (r : result)
    (i : nat) (row : frontier_row) :
  optimize df risk_free_rate weight_bounds = (printed, Returned (Some r)) ->
  efficient_frontier r !! i = Some row ->
  exists lo hi w,
    Numpy.min (mean df) = Returned lo /\ Numpy.max (mean df) = Returned hi
    /\ omap (kept_for qp df weight_bounds) (Numpy.linspace lo hi num_target_returns) !! i
       = Some w
    /\ length w = length (columns df)
    /\ row = frontier_row_for sqrtQ df risk_free_rate w.
Proof.
  intros H Hi. apply frontier_selected in H as (lo & hi & Elo & Ehi & HF & _).
  rewrite HF, list_lookup_fmap in Hi.
  destruct (omap _ _ !! i) as [w|] eqn:Ew; [|done]. apply (inj Some) in Hi.
  exists lo, hi, w. do 3 (split; [done|]). split; [|done].
  apply list_elem_of_lookup_2, list_elem_of_omap in Ew as (t & _ & Hk).
  apply kept_weights_Some in Hk as [_ Hl]. by rewrite mean_length in Hl.
Qed.

Lemma weights_of_row (columns : list string) (mu : list Q) (sigma : list (list Q))
    (rf : Q) (w w' : list Q) (asset : string) :
  row_of sqrtQ columns mu sigma rf w = row_of sqrtQ columns mu sigma rf w' ->
  weights (portfolio_of sqrtQ columns mu sigma rf w) !! asset
  = dict_of_items (zip columns w') !! asset.
Proof.
  intros Hrow. apply (f_equal row_weights) in Hrow. simpl in Hrow.
  simpl. rewrite <- (dict_of_items_rename weight_key columns w asset), Hrow.
  apply dict_of_items_rename, _.
Qed.

(** X8.  Each of the two portfolios of a returned result carries one
    weight per asset: the keys of its weights are the columns of the
    table. *)
Theorem portfolio_weights_per_asset (df : DataFrame) (risk_free_rate : Q)
    (weight_bounds : weight_bounds_t) (printed : list string) (r : result)
    (p : portfolio) (asset : string) :
  optimize df risk_free_rate weight_bounds = (printed, Returned (Some r)) ->
  max_sharpe_portfolio r = Some p \/ min_variance_portfolio r = Some p ->
  is_Some (weights p !! asset) <-> asset ∈ columns df.
Proof.
  intros H Hp. pose proof H as Hsel.
  apply frontier_selected in Hsel as (lo & hi & _ & _ & _ & Hsel).
  unfold Invariants.selected in Hsel.
  assert (exists i w, efficient_frontier r !! i
                      = Some (row_of sqrtQ (columns df) (mean df) (cov df) risk_free_rate w)
            /\ p = portfolio_of sqrtQ (columns df) (mean df) (cov df) risk_free_rate w)
    as (i & w & Hi & ->).
  { destruct (efficient_frontier r) as [|r0 F].
    - destruct Hsel as [H1 H2]. destruct Hp; congruence.
    - destruct Hsel as [(i & w & Hi & Hmax & _) (j & w' & Hj & Hmin & _)].
      destruct Hp as [Hp|Hp].
      + exists i, w. split; [done|]. congruence.
      + exists j, w'. split; [done|]. congruence. }
  destruct (frontier_row_kept _ _ _ _ _ _ _ H Hi) as (_ & _ & w' & _ & _ & _ & Hl & Hrow).
  rewrite (weights_of_row _ _ _ _ w w' asset Hrow). split.
  - intros Hs. destruct (decide (asset ∈ columns df)) as [|Hn]; [done|].
    rewrite dict_of_items_zip_absent in Hs by done. by destruct Hs.
  - intros Hin. by apply dict_of_items_zip_present.
Qed.

(** X9.  In a returned result with both portfolios, the min-variance
    portfolio has no greater risk and no greater Sharpe ratio than the
    max-Sharpe portfolio. *)
Theorem portfolios_are_ordered (df : DataFrame) (risk_free_rate : Q)
    (weight_bounds : weight_bounds_t) (printed : list string) (r : result)
    (p_sharpe p_variance : portfolio) :
  optimize df risk_free_rate weight_bounds = (printed, Returned (Some r)) ->
  max_sharpe_portfolio r = Some p_sharpe ->
  min_variance_portfolio r = Some p_variance ->
  fle (risk p_variance) (risk p_sharpe) /\ fle (sharpe p_variance) (sharpe p_sharpe).
Proof.
  intros H Hmax Hmin.
  apply frontier_selected in H as (lo & hi & _ & _ & _ & Hsel).
  unfold Invariants.selected in Hsel.
  destruct (efficient_frontier r) as [|r0 F] eqn:EF.
  { destruct Hsel as [H1 _]. congruence. }
  destruct Hsel as [(i & w & Hi & Hp & (v & Hv & Hge & _))
                    (j & w' & Hj & Hp' & _ & (u & Hu & Hle & _))].
  assert (p_sharpe = portfolio_of sqrtQ (columns df) (mean df) (cov df) risk_free_rate w)
    as -> by congruence.
  assert (p_variance = portfolio_of sqrtQ (columns df) (mean df) (cov df) risk_free_rate w')
    as -> by congruence.
  rewrite list_lookup_fmap in Hv, Hu. rewrite Hi in Hv. rewrite Hj in Hu.
  injection Hv as <-. injection Hu as <-. split.
  - apply (Hle i). by rewrite list_lookup_fmap, Hi.
  - apply (Hge j). by rewrite list_lookup_fmap, Hj.
Qed.

(** X10.  The risk-free rate moves nothing but the Sharpe ratios and the
    choice of the max-Sharpe portfolio: two returning calls that differ in
    it alone have frontiers with the same returns, risks and weights, and
    min-variance portfolios with the same weights, return and risk. *)
Theorem risk_free_rate_moves_sharpe_only (df : DataFrame) (rf1 rf2 : Q)
    (weight_bounds : weight_bounds_t) (printed1 printed2 : list string)
    (r1 r2 : result) :
  optimize df rf1 weight_bounds = (printed1, Returned (Some r1)) ->
  optimize df rf2 weight_bounds = (printed2, Returned (Some r2)) ->
  map row_return (efficient_frontier r1) = map row_return (efficient_frontier r2)
  /\ map row_risk (efficient_frontier r1) = map row_risk (efficient_frontier r2)
  /\ map row_weights (efficient_frontier r1) = map row_weights (efficient_frontier r2)
  /\ allocation <$> min_variance_portfolio r1 = allocation <$> min_variance_portfolio r2.
Proof.
  intros H1 H2.
  pose proof (frontier_selected sqrtQ qp _ _ _ _ _ H1) as (lo & hi & Elo & Ehi & HF1 & Hs1).
  pose proof (frontier_selected sqrtQ qp _ _ _ _ _ H2) as (lo' & hi' & Elo' & Ehi' & HF2 & Hs2).
  assert (lo' = lo) as -> by congruence. assert (hi' = hi) as -> by congruence.
  set (K := omap (kept_for qp df weight_bounds) (Numpy.linspace lo hi num_target_returns)) in *.
  assert (map row_return (efficient_frontier r1) = map row_return (efficient_frontier r2)
          /\ map row_risk (efficient_frontier r1) = map row_risk (efficient_frontier r2)
          /\ map row_weights (efficient_frontier r1)
             = map row_weights (efficient_frontier r2)) as (Hret & Hrisk & Hwts).
  { rewrite HF1, HF2, !map_map. done. }
  do 3 (split; [done|]).
  unfold Invariants.selected in Hs1, Hs2.
  destruct (efficient_frontier r1) as [|a1 F1] eqn:EF1;
    destruct (efficient_frontier r2) as [|a2 F2] eqn:EF2; try done.
  { destruct Hs1 as [_ ->]. by destruct Hs2 as [_ ->]. }
  destruct Hs1 as [_ (i & w1 & Hi1 & -> & Hidx1 & _)].
  destruct Hs2 as [_ (j & w2 & Hi2 & -> & Hidx2 & _)].
  rewrite Hrisk in Hidx1. assert (j = i) as -> by congruence.
  cbn [fmap option_fmap option_map]. f_equal. unfold allocation.
  assert (exists w, row_of sqrtQ (columns df) (mean df) (cov df) rf1 w1
                    = row_of sqrtQ (columns df) (mean df) (cov df) rf1 w
                 /\ row_of sqrtQ (columns df) (mean df) (cov df) rf2 w2
                    = row_of sqrtQ (columns df) (mean df) (cov df) rf2 w)
    as (w & Hw1 & Hw2).
  { rewrite HF1, list_lookup_fmap in Hi1. rewrite HF2, list_lookup_fmap in Hi2.
    destruct (K !! i) as [w|]; [|done]. exists w.
    apply (inj Some) in Hi1, Hi2. unfold frontier_row_for in Hi1, Hi2.
    by rewrite Hi1, Hi2. }
  f_equal; [f_equal|].
  - apply map_eq. intros asset.
    rewrite (weights_of_row _ _ _ _ w1 w asset Hw1).
    by rewrite (weights_of_row _ _ _ _ w2 w asset Hw2).
  - apply (f_equal row_return) in Hw1, Hw2. cbn [row_return row_of] in Hw1, Hw2.
    cbn [return_ portfolio_of]. by rewrite Hw1, Hw2.
  - apply (f_equal row_risk) in Hw1, Hw2. cbn [row_risk row_of] in Hw1, Hw2.
    cbn [risk portfolio_of]. by rewrite Hw1, Hw2.
Qed.

End WithSolver.

End OptimizerExtras.

(** ** Further properties of the generator *)

Module GeneratorExtras.

Import Generator GeneratorSpec GeneratorFacts NumFacts CovFacts PyFacts NumpyFacts.
Import GeneratorTheorems.



Section WithRandom.

Variable sqrtQ : Q -> Q.
Variable rng : Type.
Variable random : nat -> rng -> list Q * rng.

Abbreviation generate := (return_portfolios sqrtQ rng random).


(** X12.  Asked for no portfolio of at least one asset, the call raises
    [IndexError]: the array of the weights is empty and has no row for the
    first asset. *)
Theorem no_portfolio_raises_index_error (expected_returns : expected_returns_t)
    (cov_matrix : list (list Q)) (s : rng) :
  matching_dimensions expected_returns cov_matrix ->
  values_of expected_returns <> [] ->
  generate expected_returns cov_matrix 0 s = ([], Raised IndexError, s).
Proof.
  intros Hm Hne. rewrite generate_matching by done. cbv zeta.
  cbn [draws_of state_after map]. unfold assemble.
  cbn [stock_weights Numpy.transpose].
  pose proof (asset_names_length expected_returns) as Hl.
  destruct (asset_names_of expected_returns) as [|name names].
  - destruct (values_of expected_returns); done.
  - by rewrite imap_cons.
Qed.

(** X13.  With matching dimensions, at least one portfolio, distinct asset
    labels and draws of one number per asset, the call returns a table
    whose row [t] is computed from draw [t] alone: its weights are the draw
    divided by its sum, followed after the return and the volatility of
    these weights. *)
Theorem rows_follow_draws (expected_returns : expected_returns_t)
    (cov_matrix : list (list Q)) (n : nat) (s : rng) :
  matching_dimensions expected_returns cov_matrix ->
  (1 <= n)%nat ->
  NoDup (asset_names_of expected_returns) ->
  Forall (fun d => length d = length (values_of expected_returns))
         (draws_of random n (length (values_of expected_returns)) s) ->
  exists T,
    generate expected_returns cov_matrix n s
    = ([], Returned (Some T),
       state_after random n (length (values_of expected_returns)) s)
    /\ labels T
       = ["Returns"; "Volatility"] ++ map weight_label (asset_names_of expected_returns)
    /\ forall t d,
         draws_of random n (length (values_of expected_returns)) s !! t = Some d ->
         table_row T t
         = returns_of (values_of expected_returns) (normalize d)
           :: volatility_of sqrtQ cov_matrix (normalize d)
           :: normalize d.
Proof.
  intros Hdim Hn Hnd Hdraws. rewrite generate_matching by done. cbv zeta.
  set (er := values_of expected_returns) in *.
  set (k := length er) in *.
  set (D := draws_of random n k s) in *.
  set (W := map normalize D).
  assert (length D = n) as HD by apply draws_length.
  assert (Forall (fun w => length w = k) W) as HW.
  { apply Forall_fmap. eapply Forall_impl; [exact Hdraws|].
    intros d Hd. simpl. unfold normalize. by rewrite length_map. }
  destruct (lookup_lt_is_Some_2 W 0) as [w0 Hw0].
  { unfold W. rewrite length_map. lia. }
  destruct (transpose_row W k 0 _ HW Hw0) as (Hlen & _ & _).
  rewrite assemble_spec; [|done|by rewrite asset_names_length]. cbn [stock_weights].
  assert (length (map weight_label (asset_names_of expected_returns))
          = length (Numpy.transpose NaN W)) as Hzip.
  { by rewrite length_map, asset_names_length, Hlen. }
  eexists. split; [done|]. split.
  - unfold labels. cbn [app map fst]. by rewrite map_fst_zip.
  - intros t d Hd.
    assert (W !! t = Some (normalize d)) as Hwt.
    { unfold W. by rewrite list_lookup_fmap, Hd. }
    destruct (transpose_row W k t _ HW Hwt) as (_ & _ & Hwr).
    unfold table_row. cbn [app map snd port_returns port_volatility].
    rewrite !nth_lookup, !list_lookup_fmap, Hwt.
    cbn [fmap option_fmap option_map default]. do 2 f_equal.
    transitivity (map (fun c => nth t c NaN)
                     (map snd (zip (map weight_label (asset_names_of expected_returns))
                                   (Numpy.transpose NaN W)))).
    + by rewrite map_map.
    + by rewrite map_snd_zip.
Qed.


End WithRandom.

(** X15.  A plain array of [k] expected returns gets the labels
    [Asset_1], ..., [Asset_k], which are pairwise distinct: no weight column
    of such a call overwrites another. *)
Theorem default_labels (values : list Q) :
  length (asset_names_of (Array values)) = length values
  /\ NoDup (asset_names_of (Array values))
  /\ forall i, (i < length values)%nat ->
       asset_names_of (Array values) !! i = Some ("Asset_" +:+ pretty (i + 1)%nat).
Proof.
  split; [apply (asset_names_length (Array values))|].
  split; [apply default_names_nodup|].
  intros i Hi. simpl. by rewrite list_lookup_fmap, lookup_seq_lt.
Qed.

End GeneratorExtras.

(** ** The further properties on concrete inputs *)

Module MoreRuns.

Import Pandas Optimizer Generator Spec GeneratorSpec ProgramSpec Concrete MoreConcrete.
Import NumFacts CovFacts OptimizerTheorems GeneratorFacts GeneratorTheorems.
Import OptimizerExtras GeneratorExtras Runs.

Lemma optimize_demo_at (risk_free_rate : Q) (df : DataFrame) :
  enough_data df -> length (columns df) = 2%nat ->
  optimize_demo df risk_free_rate (BoundsTuple [0; 1])
  = ([], Returned (Some (result_at risk_free_rate df))).
Proof.
  intros Hd Hcols.
  destruct (optimize_quiet sqrt_floor qp_two_assets df risk_free_rate (BoundsTuple [0; 1]))
    as [r Hr]; [done|by apply qp_two_assets_quiet|].
  unfold result_at. rewrite Hr. cbn [snd]. by rewrite bound_vectors_default.
Qed.

Lemma demo_max_sharpe_reported :
  max_sharpe_portfolio (result_on demo_returns) = Some demo_max_sharpe.
Proof.
  unfold demo_max_sharpe.
  destruct (max_sharpe_portfolio (result_on demo_returns)) eqn:E; [done|].
  vm_compute in E. discriminate.
Qed.

Lemma demo_min_variance_reported :
  min_variance_portfolio (result_on demo_returns) = Some demo_min_variance.
Proof.
  unfold demo_min_variance.
  destruct (min_variance_portfolio (result_on demo_returns)) eqn:E; [done|].
  vm_compute in E. discriminate.
Qed.

Lemma per_asset_bounds_witness :
  length demo_bounds = 2%nat
  /\ exists min_weights max_weights,
       bound_vectors 2 (BoundsList demo_bounds) = ([], (min_weights, max_weights))
       /\ length min_weights = 2%nat /\ length max_weights = 2%nat
       /\ forall i min_w max_w,
            demo_bounds !! i = Some (min_w, max_w) ->
            min_weights !! i = Some min_w /\ max_weights !! i = Some max_w.
Proof.
  split; [reflexivity|]. exact (per_asset_bounds 2 demo_bounds eq_refl).
Defined.

Lemma inequalities_witness :
  length [1 # 2; 1 # 2] = length (columns demo_returns)
  /\ (meets_inequalities (program_for demo_returns (BoundsList demo_bounds) 1) [1 # 2; 1 # 2]
      <-> within_bounds
            (bound_vectors (length (mean demo_returns)) (BoundsList demo_bounds)).2.1
            (bound_vectors (length (mean demo_returns)) (BoundsList demo_bounds)).2.2
            [1 # 2; 1 # 2]).
Proof.
  split; [reflexivity|].
  exact (inequalities_are_bounds demo_returns (BoundsList demo_bounds) 1 [1 # 2; 1 # 2]
           eq_refl).
Defined.

Lemma equalities_witness :
  length [1 # 2; 1 # 2] = length (columns demo_returns)
  /\ (meets_equalities (program_for demo_returns (BoundsTuple [0; 1]) (3 # 2)) [1 # 2; 1 # 2]
      <-> Qsum [1 # 2; 1 # 2] == 1
          /\ portfolio_return (mean demo_returns) [1 # 2; 1 # 2] == 3 # 2).
Proof.
  split; [reflexivity|].
  exact (proj1 (equalities_are_budget_and_target demo_returns (BoundsTuple [0; 1]) (3 # 2)
                  [1 # 2; 1 # 2] eq_refl)).
Defined.

Lemma targets_witness :
  enough_data demo_returns
  /\ exists lo hi,
       Numpy.min (mean demo_returns) = Returned lo
       /\ Numpy.max (mean demo_returns) = Returned hi
       /\ lo <= hi.
Proof.
  split; [exact demo_enough_data|].
  destruct (targets_ascend_within_means demo_returns demo_enough_data)
    as (lo & hi & Hlo & Hhi & Hle & _).
  exists lo, hi. exact (conj Hlo (conj Hhi Hle)).
Defined.



Lemma weights_per_asset_witness :
  optimize_demo demo_returns 0 (BoundsTuple [0; 1])
  = ([], Returned (Some (result_on demo_returns)))
  /\ (max_sharpe_portfolio (result_on demo_returns) = Some demo_max_sharpe
      \/ min_variance_portfolio (result_on demo_returns) = Some demo_max_sharpe)
  /\ (is_Some (weights demo_max_sharpe !! "A") <-> "A" ∈ columns demo_returns).
Proof.
  split; [exact demo_run|].
  split; [exact (or_introl demo_max_sharpe_reported)|].
  exact (portfolio_weights_per_asset sqrt_floor qp_two_assets demo_returns 0
           (BoundsTuple [0; 1]) [] (result_on demo_returns) demo_max_sharpe "A"
           demo_run (or_introl demo_max_sharpe_reported)).
Defined.

Lemma ordered_witness :
  optimize_demo demo_returns 0 (BoundsTuple [0; 1])
  = ([], Returned (Some (result_on demo_returns)))
  /\ max_sharpe_portfolio (result_on demo_returns) = Some demo_max_sharpe
  /\ min_variance_portfolio (result_on demo_returns) = Some demo_min_variance
  /\ fle (risk demo_min_variance) (risk demo_max_sharpe)
  /\ fle (sharpe demo_min_variance) (sharpe demo_max_sharpe).
Proof.
  split; [exact demo_run|]. split; [exact demo_max_sharpe_reported|].
  split; [exact demo_min_variance_reported|].
  exact (portfolios_are_ordered sqrt_floor qp_two_assets demo_returns 0
           (BoundsTuple [0; 1]) [] (result_on demo_returns)
           demo_max_sharpe demo_min_variance
           demo_run demo_max_sharpe_reported demo_min_variance_reported).
Defined.

Lemma risk_free_rate_witness :
  optimize_demo demo_returns 0 (BoundsTuple [0; 1])
  = ([], Returned (Some (result_at 0 demo_returns)))
  /\ optimize_demo demo_returns 1 (BoundsTuple [0; 1])
     = ([], Returned (Some (result_at 1 demo_returns)))
  /\ map row_risk (efficient_frontier (result_at 0 demo_returns))
     = map row_risk (efficient_frontier (result_at 1 demo_returns))
  /\ allocation <$> min_variance_portfolio (result_at 0 demo_returns)
     = allocation <$> min_variance_portfolio (result_at 1 demo_returns).
Proof.
  pose proof (optimize_demo_at 0 demo_returns demo_enough_data eq_refl) as H0.
  pose proof (optimize_demo_at 1 demo_returns demo_enough_data eq_refl) as H1.
  split; [exact H0|]. split; [exact H1|].
  destruct (risk_free_rate_moves_sharpe_only sqrt_floor qp_two_assets demo_returns 0 1
              (BoundsTuple [0; 1]) [] [] _ _ H0 H1) as (_ & Hrisk & _ & Hmin).
  exact (conj Hrisk Hmin).
Defined.

Lemma no_portfolio_witness :
  matching_dimensions demo_expected demo_cov
  /\ values_of demo_expected <> []
  /\ generate_from demo_expected demo_cov 0 demo_draws = ([], Raised IndexError, demo_draws).
Proof.
  assert (matching_dimensions demo_expected demo_cov) as H1 by reflexivity.
  assert (values_of demo_expected <> []) as H2 by discriminate.
  split; [exact H1|]. split; [exact H2|].
  exact (no_portfolio_raises_index_error sqrt_floor (list (list Q)) random_from_list
           demo_expected demo_cov demo_draws H1 H2).
Defined.

Lemma demo_draws_lengths :
  Forall (fun d => length d = length (values_of demo_expected))
         (draws_of random_from_list 2 (length (values_of demo_expected)) demo_draws).
Proof. repeat constructor. Qed.

Lemma rows_follow_draws_witness :
  matching_dimensions demo_expected demo_cov
  /\ (1 <= 2)%nat
  /\ NoDup (asset_names_of demo_expected)
  /\ Forall (fun d => length d = length (values_of demo_expected))
            (draws_of random_from_list 2 (length (values_of demo_expected)) demo_draws)
  /\ exists T,
       generate_from demo_expected demo_cov 2 demo_draws
       = ([], Returned (Some T),
          state_after random_from_list 2 (length (values_of demo_expected)) demo_draws)
       /\ labels T
          = ["Returns"; "Volatility"] ++ map weight_label (asset_names_of demo_expected).
Proof.
  assert (matching_dimensions demo_expected demo_cov) as H1 by reflexivity.
  assert (1 <= 2)%nat as H2 by lia.
  pose proof (default_names_nodup [1 # 10; 2 # 10]) as H3.
  split; [exact H1|]. split; [exact H2|]. split; [exact H3|].
  split; [exact demo_draws_lengths|].
  destruct (rows_follow_draws sqrt_floor (list (list Q)) random_from_list
              demo_expected demo_cov 2 demo_draws H1 H2 H3 demo_draws_lengths)
    as (T & HT & Hlabels & _).
  exists T. exact (conj HT Hlabels).
Defined.


End MoreRuns.
